(** * Verification of the fake-news scoring backend (fake_news_backend.py)

    A shallow embedding of [map_langdetect_to_m2m] and of the methods of
    [FakeNewsService], followed by the properties of the pipeline.

    Python values are modelled as follows.
    - [str] is a sequence of Unicode code points ([list N]).
    - [float] is an IEEE 754 binary64 value, as [spec_float] of the Standard
      Library; literals are the binary64 values nearest to the decimals.
    - A [dict] with string keys is an association list in insertion order.
    - The external collaborators (langdetect, the M2M100 tokenizer and model,
      the zero-shot pipeline) are oracles of a [Backend] record; every call
      is recorded in a trace, and a Python exception is an [outcome]. *)

From Stdlib Require Import ZArith NArith List Bool Ascii String Lia.
From Stdlib Require Import SpecFloat DecimalString.
Import ListNotations.

Set Implicit Arguments.

(* ------------------------------------------------------------------ *)
(** ** Python strings *)

Module PyStr.

Definition char := N.
Definition str := list char.

Fixpoint str_eqb (a b : str) : bool :=
  match a, b with
  | [], [] => true
  | x :: a', y :: b' => N.eqb x y && str_eqb a' b'
  | _, _ => false
  end.

(** An ASCII literal: each byte is its own code point. *)
Definition lit (s : string) : str :=
  List.map N_of_ascii (list_ascii_of_string s).
Arguments lit s%_string.

(** [str.isspace] on one code point, which is also what [\s] matches in a
    [str] pattern: the whitespace table of CPython. *)
Definition isspace (c : char) : bool :=
  ((9 <=? c) && (c <=? 13) || (28 <=? c) && (c <=? 32)
   || (c =? 133) || (c =? 160) || (c =? 5760)
   || (8192 <=? c) && (c <=? 8202)
   || (c =? 8232) || (c =? 8233) || (c =? 8239) || (c =? 8287)
   || (c =? 12288))%N.

Fixpoint lstrip (s : str) : str :=
  match s with
  | [] => []
  | c :: rest => if isspace c then lstrip rest else s
  end.

Definition rstrip (s : str) : str := rev (lstrip (rev s)).

(** [s.strip()] *)
Definition strip (s : str) : str := rstrip (lstrip s).

(** [not s] for a string *)
Definition is_empty (s : str) : bool :=
  match s with [] => true | _ => false end.

Fixpoint startswith (s prefix : str) : bool :=
  match prefix, s with
  | [], _ => true
  | p :: prefix', c :: s' => N.eqb c p && startswith s' prefix'
  | _ :: _, [] => false
  end.

Definition is_ascii (c : char) : bool := (c <? 128)%N.

Definition ascii_lower (c : char) : char :=
  if ((65 <=? c) && (c <=? 90))%N then (c + 32)%N else c.

(** [s.lower()].  On a string of ASCII characters it maps A-Z to a-z; on any
    other string it is the lower-casing of the Unicode database, which is
    the parameter [unicode_lower]. *)
Definition str_lower (unicode_lower : str -> str) (s : str) : str :=
  if forallb is_ascii s then List.map ascii_lower s else unicode_lower s.

(** [s.replace(old, new)] where [old] is the one-character string [old]. *)
Definition replace (old : char) (new : str) (s : str) : str :=
  flat_map (fun c => if N.eqb c old then new else [c]) s.

(** [sep.join(parts)] *)
Fixpoint join (sep : str) (parts : list str) : str :=
  match parts with
  | [] => []
  | [p] => p
  | p :: rest => p ++ sep ++ join sep rest
  end.

(** [str(n)] and the [{n}] of an f-string, for an [int]. *)
Definition str_of_int (n : Z) : str :=
  lit (NilZero.string_of_int (Z.to_int n)).

End PyStr.
Import PyStr.

(* ------------------------------------------------------------------ *)
(** ** Python dictionaries with string keys *)

Module PyDict.

Definition dict (V : Type) := list (str * V).

Fixpoint get {V} (d : dict V) (k : str) : option V :=
  match d with
  | [] => None
  | (k', v) :: d' => if str_eqb k k' then Some v else get d' k
  end.

(** [d[k] = v]: overwrite in place, or append a new key. *)
Fixpoint set {V} (d : dict V) (k : str) (v : V) : dict V :=
  match d with
  | [] => [(k, v)]
  | (k', v') :: d' =>
      if str_eqb k k' then (k', v) :: d' else (k', v') :: set d' k v
  end.

(** [{key(l): s for l, s in pairs}] *)
Definition comprehension {V} (key : str -> str) (pairs : list (str * V))
  : dict V :=
  fold_left (fun d p => set d (key (fst p)) (snd p)) pairs [].

(** [d.get(k, default)] *)
Definition get_default {V} (d : dict V) (k : str) (default : V) : V :=
  match get d k with Some v => v | None => default end.

End PyDict.

(* ------------------------------------------------------------------ *)
(** ** The language-code mapper *)

Definition special_map : PyDict.dict str :=
  [ (lit "zh-cn", lit "zh");
    (lit "zh-tw", lit "zh");
    (lit "zh", lit "zh");
    (lit "pt-br", lit "pt");
    (lit "sr", lit "sr");
    (lit "jw", lit "jv");
    (lit "he", lit "he");
    (lit "iw", lit "he");
    (lit "id", lit "id");
    (lit "fil", lit "tl");
    (lit "uk", lit "uk");
    (lit "no", lit "no");
    (lit "nb", lit "no");
    (lit "nn", lit "no") ].

(** [map_langdetect_to_m2m(lang_code)]; [None] is Python's [None]. *)
Definition map_langdetect_to_m2m (unicode_lower : str -> str)
    (lang_code : option str) : str :=
  match lang_code with
  | None => lit "en"
  | Some code =>
      if is_empty code then lit "en"
      else
        let code := str_lower unicode_lower code in
        match PyDict.get special_map code with
        | Some v => v
        | None => firstn 2 code
        end
  end.

(* ------------------------------------------------------------------ *)
(** ** Python floats (binary64) *)

Module PyFloat.

Definition float := spec_float.

Definition prec : Z := 53.
Definition emax : Z := 1024.

(** The float literals of the source, as mantissa and exponent of the
    nearest binary64 value. *)
Definition f0_0 : float := S754_zero false.
Definition f0_3 : float := S754_finite false 5404319552844595 (-54).
Definition f0_4 : float := S754_finite false 7205759403792794 (-54).
Definition f0_5 : float := S754_finite false 4503599627370496 (-53).
Definition f0_6 : float := S754_finite false 5404319552844595 (-53).
Definition f0_7 : float := S754_finite false 6305039478318694 (-53).
(** [float(100)] *)
Definition f100 : float := S754_finite false 7036874417766400 (-46).

(** [x >= y] and [x <= y]; both are [False] when an operand is NaN. *)
Definition ge (x y : float) : bool := SFleb y x.
Definition le (x y : float) : bool := SFleb x y.
Definition lt (x y : float) : bool := SFltb x y.

Definition mul (x y : float) : float := SFmul prec emax x y.

(** The integer nearest to [m * 2^e], ties to the even one. *)
Definition round_half_even (m : positive) (e : Z) : Z :=
  if (0 <=? e)%Z then (Zpos m * 2 ^ e)%Z
  else
    let d := (2 ^ (- e))%Z in
    let q := (Zpos m / d)%Z in
    let r := (Zpos m mod d)%Z in
    match (2 * r ?= d)%Z with
    | Lt => q
    | Gt => (q + 1)%Z
    | Eq => if Z.even q then q else (q + 1)%Z
    end.

End PyFloat.
Import PyFloat.

(* ------------------------------------------------------------------ *)
(** ** Exceptions, collaborators and the call trace *)

Inductive exn : Type :=
| ValueError
| OverflowError
| IndexError
| CollaboratorError (code : N).

Inductive outcome (A : Type) : Type :=
| Returned (a : A)
| Raised (e : exn).
Arguments Returned {A} a.
Arguments Raised {A} e.

(** [int(round(x))] for a float [x]: [round] raises on NaN and infinities. *)
Definition int_round (x : float) : outcome Z :=
  match x with
  | S754_zero _ => Returned 0%Z
  | S754_infinity _ => Raised OverflowError
  | S754_nan => Raised ValueError
  | S754_finite s m e =>
      let n := round_half_even m e in
      Returned (if s then (- n)%Z else n)
  end.

(** One item of a zero-shot response: aligned [labels] and [scores]. *)
Record ZeroShotResult : Type := {
  labels : list str;
  scores : list float
}.

(** Token tensors of the translation model. *)
Definition Tensor := list (list Z).

Inductive Call : Type :=
| CallDetect (text : str)
| CallSetSrcLang (src_lang : str)
| CallTokenize (text : str) (truncation : bool) (max_length : Z)
| CallGetLangId (lang : str)
| CallGenerate (encoded : Tensor) (forced_bos_token_id max_new_tokens : Z)
| CallBatchDecode (tokens : Tensor) (skip_special_tokens : bool)
| CallZeroShot (text : str) (candidate_labels : list str)
    (hypothesis_template : str) (multi_label : bool)
| CallZeroShotBatch (texts : list str) (candidate_labels : list str)
    (hypothesis_template : str) (multi_label : bool).

Definition Trace := list Call.

(** The external collaborators.  The tokenizer's [src_lang] attribute is
    passed to [tokenize] explicitly. *)
Record Backend : Type := {
  detect : str -> outcome str;
  tokenize : str -> str -> Z -> outcome Tensor;
  get_lang_id : str -> outcome Z;
  generate : Tensor -> Z -> Z -> outcome Tensor;
  batch_decode : Tensor -> outcome (list str);
  zero_shot : str -> list str -> str -> outcome ZeroShotResult;
  zero_shot_batch : list str -> list str -> str -> outcome (list ZeroShotResult)
}.

(** Computations that call collaborators and may raise. *)
Definition M (A : Type) : Type := Trace -> outcome A * Trace.

Definition ret {A} (a : A) : M A := fun t => (Returned a, t).

Definition bind {A B} (m : M A) (f : A -> M B) : M B :=
  fun t =>
    match m t with
    | (Returned a, t') => f a t'
    | (Raised e, t') => (Raised e, t')
    end.

(** A collaborator call: record it, then return or raise as the oracle says. *)
Definition call {A} (c : Call) (r : outcome A) : M A :=
  fun t => (r, t ++ [c]).

Definition lift {A} (r : outcome A) : M A := fun t => (r, t).

(** [try: m  except Exception: h] *)
Definition try_except {A} (m : M A) (h : M A) : M A :=
  fun t =>
    match m t with
    | (Returned a, t') => (Returned a, t')
    | (Raised _, t') => h t'
    end.

Definition run {A} (m : M A) : outcome A * Trace := m [].

Declare Scope py_scope.
Delimit Scope py_scope with py.
Notation "x <- m ;; k" := (bind m (fun x => k))
  (at level 61, m at next level, right associativity) : py_scope.
Open Scope py_scope.

Fixpoint mapM {A B} (f : A -> M B) (l : list A) : M (list B) :=
  match l with
  | [] => ret []
  | a :: l' => b <- f a ;; bs <- mapM f l' ;; ret (b :: bs)
  end.

(* ------------------------------------------------------------------ *)
(** ** FakeNewsService *)

Record SentenceScore : Type := {
  sentence : str;
  true_score : float
}.

(** The dictionary returned by [process]. *)
Record ProcessResult : Type := {
  detected_language : str;
  translated_text : str;
  overall_true_score : float;
  verdict_label : str;
  verdict_color : str;
  highlighted_html : str;
  sentence_scores : list SentenceScore
}.

(** The characters of the class [。！？]. *)
Definition cjk_terminator (c : char) : bool :=
  ((c =? 12290) || (c =? 65281) || (c =? 65311))%N.

(** The characters of the class [\.!?。！？]. *)
Definition terminator (c : char) : bool :=
  ((c =? 46) || (c =? 33) || (c =? 63))%N || cjk_terminator c.

(** [re.sub(r"([。！？])", r"\1 ", text)] *)
Definition sub_cjk_space (text : str) : str :=
  flat_map (fun c => if cjk_terminator c then [c; 32%N] else [c]) text.

(** Prepend a character to the fragment being built. *)
Definition push (c : char) (parts : list str) : list str :=
  match parts with
  | [] => [[c]]
  | p :: ps => (c :: p) :: ps
  end.

(** [re.split(r"(?<=[\.!?。！？])\s+", s)], scanning [s] from the left.
    [in_sep] says that the scan is inside a match of [\s+]; [after_term]
    that the character before the current one is a terminator (the
    lookbehind).  A match starts at a whitespace character that follows a
    terminator, extends over the whole whitespace run, and closes the
    fragment before it; the text after the last match is the last fragment
    (an empty one when the text ends with a match). *)
Fixpoint re_split (in_sep after_term : bool) (s : str) : list str :=
  match s with
  | [] => [[]]
  | c :: rest =>
      if isspace c then
        if in_sep then re_split true false rest
        else if after_term then [] :: re_split true false rest
        else push c (re_split false false rest)
      else push c (re_split false (terminator c) rest)
  end.

(** [[s.strip() for s in parts if s.strip()]] *)
Definition stripped_nonempty (parts : list str) : list str :=
  List.map strip (filter (fun s => negb (is_empty (strip s))) parts).

Definition split_into_sentences (text : str) : list str :=
  if is_empty (strip text) then []
  else
    let text := sub_cjk_space text in
    let parts := re_split false false (strip text) in
    stripped_nonempty parts.

Definition verdict_from_score (true_score : float) : str * str :=
  if ge true_score f0_6 then (lit "Likely True", lit "#16a34a")
  else if le true_score f0_4 then (lit "Likely False", lit "#dc2626")
  else (lit "Uncertain", lit "#d97706").

Definition sentence_bg_color (true_score : float) : str :=
  if ge true_score f0_7 then lit "#bbf7d0"
  else if ge true_score f0_6 then lit "#dcfce7"
  else if le true_score f0_3 then lit "#fecaca"
  else if le true_score f0_4 then lit "#fee2e2"
  else lit "#fef9c3".

Definition _escape_html (text : str) : str :=
  replace 62%N (lit "&gt;")
    (replace 60%N (lit "&lt;")
      (replace 38%N (lit "&amp;") text)).

(** The double quote character of the span's style attribute. *)
Definition dquote : str := [34%N].

Definition highlighted_span (s : SentenceScore) : M str :=
  let color := sentence_bg_color (true_score s) in
  conf <- lift (int_round (mul (true_score s) f100)) ;;
  ret (lit "<span style=" ++ dquote ++ lit "background:" ++ color
       ++ lit "; padding:2px 4px; border-radius:4px; margin-right:2px; display:inline;"
       ++ dquote ++ lit ">"
       ++ _escape_html (sentence s) ++ lit " "
       ++ lit "<small style='opacity:0.7'>(true " ++ str_of_int conf
       ++ lit "%)</small>"
       ++ lit "</span>").

Definition build_highlighted_html (sentence_scores : list SentenceScore)
  : M str :=
  spans <- mapM highlighted_span sentence_scores ;;
  ret (lit "<div style='line-height:1.9'>" ++ join (lit " ") spans
       ++ lit "</div>").

(** [l[:n]] for a Python [int] [n] *)
Definition slice_to {A} (l : list A) (n : Z) : list A :=
  if (0 <=? n)%Z then firstn (Z.to_nat n) l
  else firstn (List.length l - Z.to_nat (- n)) l.

Section Service.

Variable unicode_lower : str -> str.
Variable be : Backend.

Definition candidate_labels : list str := [lit "true"; lit "false"].
Definition hypothesis_template : str := lit "This statement is {}.".

Definition detect_language (text : str) : M str :=
  try_except (call (CallDetect text) (detect be text)) (ret (lit "en")).

Definition translate_to_english (text src_lang : str) : M str :=
  if is_empty (strip text) then ret []
  else if startswith src_lang (lit "en") then ret text
  else
    let m2m_src := map_langdetect_to_m2m unicode_lower (Some src_lang) in
    _ <- call (CallSetSrcLang m2m_src) (Returned tt) ;;
    encoded <- call (CallTokenize text true 1024)
                    (tokenize be m2m_src text 1024) ;;
    en_id <- call (CallGetLangId (lit "en")) (get_lang_id be (lit "en")) ;;
    generated_tokens <- call (CallGenerate encoded en_id 1024)
                             (generate be encoded en_id 1024) ;;
    translated <- call (CallBatchDecode generated_tokens true)
                       (batch_decode be generated_tokens) ;;
    match translated with
    | first :: _ => ret first
    | [] => lift (Raised IndexError)
    end.

(** [float(label_to_score.get("true", 0.0))] for one response item *)
Definition true_score_of (res : ZeroShotResult) : float :=
  let label_to_score :=
    PyDict.comprehension (str_lower unicode_lower)
      (combine (labels res) (scores res)) in
  PyDict.get_default label_to_score (lit "true") f0_0.

Definition classify_truth_score (text : str) : M float :=
  if is_empty (strip text) then ret f0_5
  else
    result <- call (CallZeroShot text candidate_labels hypothesis_template false)
                   (zero_shot be text candidate_labels hypothesis_template) ;;
    ret (true_score_of result).

Definition classify_sentences (sentences : list str) (max_sentences : Z)
  : M (list SentenceScore) :=
  match sentences with
  | [] => ret []
  | _ :: _ =>
      let limited := slice_to sentences max_sentences in
      results <- call (CallZeroShotBatch limited candidate_labels
                         hypothesis_template false)
                      (zero_shot_batch be limited candidate_labels
                         hypothesis_template) ;;
      let scores :=
        List.map (fun p => {| sentence := fst p;
                              true_score := true_score_of (snd p) |})
                 (combine limited results) in
      ret (scores
           ++ List.map (fun sent => {| sentence := sent; true_score := f0_5 |})
                       (skipn (List.length limited) sentences))
  end.

(** [process(article_text)]; [None] is Python's [None]. *)
Definition process (article_text : option str) : M ProcessResult :=
  let article_text :=
    strip (match article_text with
           | Some s => if is_empty s then [] else s
           | None => []
           end) in
  if is_empty article_text then
    ret {| detected_language := [];
           translated_text := [];
           overall_true_score := f0_5;
           verdict_label := [];
           verdict_color := lit "#6b7280";
           highlighted_html := [];
           sentence_scores := [] |}
  else
    lang <- detect_language article_text ;;
    translated <- translate_to_english article_text lang ;;
    overall_score <- classify_truth_score translated ;;
    let (label, color) := verdict_from_score overall_score in
    let sentences := split_into_sentences translated in
    sent_scores <- classify_sentences sentences 40 ;;
    html <- build_highlighted_html sent_scores ;;
    ret {| detected_language := lang;
           translated_text := translated;
           overall_true_score := overall_score;
           verdict_label := label;
           verdict_color := color;
           highlighted_html := html;
           sentence_scores := sent_scores |}.

End Service.

(* ------------------------------------------------------------------ *)
(** ** Definitions that follow the specification *)

Module Spec.

(** The verdicts of section 4.6. *)
Definition likely_true : str * str := (lit "Likely True", lit "#16a34a").
Definition likely_false : str * str := (lit "Likely False", lit "#dc2626").
Definition uncertain : str * str := (lit "Uncertain", lit "#d97706").

(** The sentence background colours. *)
Definition light_green : str := lit "#bbf7d0".
Definition pale_green : str := lit "#dcfce7".
Definition light_red : str := lit "#fecaca".
Definition pale_red : str := lit "#fee2e2".
Definition pale_yellow : str := lit "#fef9c3".

(** The binary64 value nearest to 0.65, the example of section 9. *)
Definition f0_65 : float := S754_finite false 5854679515581645 (-53).

(** The value of the first check that holds, in the order of the list. *)
Fixpoint first_match {A B} (checks : list ((A -> bool) * B)) (default : B)
    (x : A) : B :=
  match checks with
  | [] => default
  | (test, b) :: rest => if test x then b else first_match rest default x
  end.

Definition bg_checks : list ((float -> bool) * str) :=
  [ (fun s => ge s f0_7, light_green);
    (fun s => ge s f0_6, pale_green);
    (fun s => le s f0_3, light_red);
    (fun s => le s f0_4, pale_red) ].

(** The entity of one character: one simultaneous substitution. *)
Definition escape_char (c : char) : str :=
  if (c =? 38)%N then lit "&amp;"
  else if (c =? 60)%N then lit "&lt;"
  else if (c =? 62)%N then lit "&gt;"
  else [c].

Definition escape (text : str) : str := flat_map escape_char text.

(** Sentence splitting in the words of section 4.1: insert the spaces,
    split, trim each fragment, drop the empty ones. *)
Definition trimmed_nonempty (parts : list str) : list str :=
  filter (fun s => negb (is_empty s)) (List.map strip parts).

Definition split (text : str) : list str :=
  trimmed_nonempty (re_split false false (sub_cjk_space text)).

(** Two lists of fragments that differ only by whitespace at the end of
    their first fragment and by fragments that trim to nothing later. *)
Definition same_upto_trailing_space (xs ys : list str) : Prop :=
  match xs, ys with
  | f :: fs, g :: gs =>
      rstrip f = rstrip g /\ trimmed_nonempty fs = trimmed_nonempty gs
  | _, _ => False
  end.

(** The result of [process] on an empty article. *)
Definition empty_result : ProcessResult :=
  {| detected_language := [];
     translated_text := [];
     overall_true_score := f0_5;
     verdict_label := [];
     verdict_color := lit "#6b7280";
     highlighted_html := [];
     sentence_scores := [] |}.


(** A classified sentence: the sentence of a zipped pair with the score
    read from its response item. *)
Definition scored (unicode_lower : str -> str) (p : str * ZeroShotResult)
  : SentenceScore :=
  {| sentence := fst p; true_score := true_score_of unicode_lower (snd p) |}.

(** The neutral score of a sentence that is not classified. *)
Definition neutral (sent : str) : SentenceScore :=
  {| sentence := sent; true_score := f0_5 |}.

End Spec.

(* ------------------------------------------------------------------ *)
(** ** Concrete collaborators used in examples *)

Module Fixtures.

(** A lower-casing that leaves strings with non-ASCII characters alone. *)
Definition lower_ascii_only : str -> str := fun s => s.

(** Every collaborator raises. *)
Definition failing_backend : Backend :=
  {| detect := fun _ => Raised (CollaboratorError 1);
     tokenize := fun _ _ _ => Raised (CollaboratorError 2);
     get_lang_id := fun _ => Raised (CollaboratorError 3);
     generate := fun _ _ _ => Raised (CollaboratorError 4);
     batch_decode := fun _ => Raised (CollaboratorError 5);
     zero_shot := fun _ _ _ => Raised (CollaboratorError 6);
     zero_shot_batch := fun _ _ _ => Raised (CollaboratorError 7) |}.


(** A response item with both labels, "true" at 0.7. *)
Definition both_labels : ZeroShotResult :=
  {| labels := [lit "true"; lit "false"]; scores := [f0_7; f0_3] |}.

(** A classifier that answers every text with [item], one item per text of
    a batch. *)
Definition constant_backend (item : ZeroShotResult) : Backend :=
  {| detect := fun _ => Returned (lit "en");
     tokenize := fun _ _ _ => Raised (CollaboratorError 2);
     get_lang_id := fun _ => Raised (CollaboratorError 3);
     generate := fun _ _ _ => Raised (CollaboratorError 4);
     batch_decode := fun _ => Raised (CollaboratorError 5);
     zero_shot := fun _ _ _ => Returned item;
     zero_shot_batch := fun texts _ _ => Returned (List.map (fun _ => item) texts) |}.

(** A classifier whose batched response has no item at all. *)
Definition short_backend : Backend :=
  {| detect := fun _ => Returned (lit "en");
     tokenize := fun _ _ _ => Raised (CollaboratorError 2);
     get_lang_id := fun _ => Raised (CollaboratorError 3);
     generate := fun _ _ _ => Raised (CollaboratorError 4);
     batch_decode := fun _ => Raised (CollaboratorError 5);
     zero_shot := fun _ _ _ => Returned both_labels;
     zero_shot_batch := fun _ _ _ => Returned [] |}.

End Fixtures.

(* ------------------------------------------------------------------ *)
(** ** Order of binary64 values *)

(* ------------------------------------------------------------------ *)
(** ** Further definitions for the properties of the backend *)

Module Props.

(** The score of the last zipped label that reads "true" once lower-cased,
    when there is one. *)
Definition last_true_score (unicode_lower : str -> str)
    (res : ZeroShotResult) : option float :=
  fold_left
    (fun acc p =>
       if str_eqb (str_lower unicode_lower (fst p)) (lit "true")
       then Some (snd p) else acc)
    (combine (labels res) (scores res)) None.

(** A float that is a number: a zero or a finite value. *)
Definition is_number (x : float) : bool :=
  match x with
  | S754_zero _ | S754_finite _ _ _ => true
  | S754_infinity _ | S754_nan => false
  end.

(** The calls that go to the translation tokenizer or model. *)
Definition is_translation_call (c : Call) : bool :=
  match c with
  | CallSetSrcLang _ | CallTokenize _ _ _ | CallGetLangId _
  | CallGenerate _ _ _ | CallBatchDecode _ _ => true
  | CallDetect _ | CallZeroShot _ _ _ _ | CallZeroShotBatch _ _ _ _ => false
  end.

(** The language that [detect_language] settles on. *)
Definition detected (be : Backend) (text : str) : str :=
  match detect be text with
  | Returned code => code
  | Raised _ => lit "en"
  end.

(** No whitespace character of [s] comes right after a terminator;
    [after_term] says whether a terminator precedes [s]. *)
Fixpoint no_boundary (after_term : bool) (s : str) : bool :=
  match s with
  | [] => true
  | c :: rest =>
      negb (after_term && isspace c) && no_boundary (terminator c) rest
  end.

(** A CJK terminator occurs in [s] only as its last character. *)
Fixpoint cjk_only_last (s : str) : bool :=
  match s with
  | [] => true
  | c :: rest =>
      (is_empty rest || negb (cjk_terminator c)) && cjk_only_last rest
  end.

(** Every CJK terminator of [s] is followed by a whitespace character. *)
Fixpoint cjk_spaced (s : str) : bool :=
  match s with
  | [] => true
  | c :: rest =>
      (if cjk_terminator c
       then match rest with x :: _ => isspace x | [] => false end
       else true) && cjk_spaced rest
  end.

(** The green, red and yellow families of sentence colours. *)
Definition is_green (color : str) : bool :=
  str_eqb color Spec.light_green || str_eqb color Spec.pale_green.
Definition is_red (color : str) : bool :=
  str_eqb color Spec.light_red || str_eqb color Spec.pale_red.
Definition is_yellow (color : str) : bool := str_eqb color Spec.pale_yellow.

End Props.

(** A backend whose detector answers "fr" and whose translation model
    returns one English text. *)
Module Examples.

Definition french_backend : Backend :=
  {| detect := fun _ => Returned (lit "fr");
     tokenize := fun _ _ _ => Returned [[128028; 17; 2]%Z];
     get_lang_id := fun _ => Returned 128022%Z;
     generate := fun _ _ _ => Returned [[2; 128022; 94; 2]%Z];
     batch_decode := fun _ => Returned [lit "The sky is blue. Really!"];
     zero_shot := fun _ _ _ => Returned Fixtures.both_labels;
     zero_shot_batch := fun texts _ _ =>
       Returned (List.map (fun _ => Fixtures.both_labels) texts) |}.

(** A backend whose detector raises and whose classifier answers. *)
Definition no_detector_backend : Backend :=
  {| detect := fun _ => Raised (CollaboratorError 1);
     tokenize := fun _ _ _ => Raised (CollaboratorError 2);
     get_lang_id := fun _ => Raised (CollaboratorError 3);
     generate := fun _ _ _ => Raised (CollaboratorError 4);
     batch_decode := fun _ => Raised (CollaboratorError 5);
     zero_shot := fun _ _ _ => Returned Fixtures.both_labels;
     zero_shot_batch := fun texts _ _ =>
       Returned (List.map (fun _ => Fixtures.both_labels) texts) |}.

End Examples.

(* ------------------------------------------------------------------ *)
(** ** SnakeLadderGame (snake_ladder.py) *)

Module SnakeLadder.

(** A [dict] from [int] to [int]. *)
Definition int_dict := list (Z * Z).

Fixpoint dict_get (d : int_dict) (k : Z) : option Z :=
  match d with
  | [] => None
  | (k', v) :: d' => if (k =? k')%Z then Some v else dict_get d' k
  end.

(** [d.get(k, default)] *)
Definition get_default (d : int_dict) (k default : Z) : Z :=
  match dict_get d k with Some v => v | None => default end.

(** [k in d] *)
Definition dict_mem (d : int_dict) (k : Z) : bool :=
  match dict_get d k with Some _ => true | None => false end.

(** [l[i]] for a Python [int] [i]: a negative index counts from the end. *)
Definition py_index {A} (l : list A) (i : Z) : outcome A :=
  let n := Z.of_nat (List.length l) in
  let j := if (i <? 0)%Z then (n + i)%Z else i in
  if ((0 <=? j) && (j <? n))%Z then
    match nth_error l (Z.to_nat j) with
    | Some a => Returned a
    | None => Raised IndexError
    end
  else Raised IndexError.

Fixpoint set_nth {A} (l : list A) (j : nat) (a : A) : list A :=
  match l, j with
  | [], _ => []
  | _ :: l', O => a :: l'
  | x :: l', S j' => x :: set_nth l' j' a
  end.

(** [l[i] = a] *)
Definition py_setitem {A} (l : list A) (i : Z) (a : A) : outcome (list A) :=
  let n := Z.of_nat (List.length l) in
  let j := if (i <? 0)%Z then (n + i)%Z else i in
  if ((0 <=? j) && (j <? n))%Z then Returned (set_nth l (Z.to_nat j) a)
  else Raised IndexError.

Definition obind {A B} (r : outcome A) (f : A -> outcome B) : outcome B :=
  match r with
  | Returned a => f a
  | Raised e => Raised e
  end.

Record Game : Type := {
  snakes : int_dict;
  ladders : int_dict;
  positions : list Z;
  current_player : Z;
  winner : option Z
}.

(** [SnakeLadderGame()] *)
Definition new_game : Game :=
  {| snakes := [(16, 6); (47, 26); (49, 11); (56, 53); (62, 19); (64, 60);
                (87, 24); (93, 73); (95, 75); (98, 78)]%Z;
     ladders := [(1, 38); (4, 14); (9, 31); (21, 42); (28, 84); (36, 44);
                 (51, 67); (71, 91); (80, 100)]%Z;
     positions := [0; 0]%Z;
     current_player := 0%Z;
     winner := None |}.

(** [game.move(steps)]: the game after the call, or the exception. *)
Definition move (g : Game) (steps : Z) : outcome Game :=
  match winner g with
  | Some _ => Returned g
  | None =>
      obind (py_index (positions g) (current_player g)) (fun cur =>
      let pos := (cur + steps)%Z in
      obind (if (pos >? 100)%Z
             then py_index (positions g) (current_player g)
             else Returned (get_default (snakes g) pos
                              (get_default (ladders g) pos pos)))
        (fun pos =>
      obind (py_setitem (positions g) (current_player g) pos)
        (fun positions' =>
      Returned {| snakes := snakes g;
                  ladders := ladders g;
                  positions := positions';
                  current_player := (1 - current_player g)%Z;
                  winner := if (pos =? 100)%Z then Some (current_player g)
                            else None |})))
  end.

Definition get_positions (g : Game) : list Z := positions g.
Definition get_winner (g : Game) : option Z := winner g.

(** A value that [roll_dice] can return: [random.randint(1, 6)]. *)
Definition is_roll (r : Z) : bool := ((1 <=? r) && (r <=? 6))%Z.

(** A sequence of calls of [move], one per element of [steps]. *)
Fixpoint play (g : Game) (steps : list Z) : outcome Game :=
  match steps with
  | [] => Returned g
  | s :: rest => obind (move g s) (fun g' => play g' rest)
  end.

(** The position of player 0 or 1 in a game with two positions. *)
Definition position_of (g : Game) (player : Z) : Z :=
  match positions g, player with
  | [p0; _], 0%Z => p0
  | [_; p1], 1%Z => p1
  | _, _ => (-1)%Z
  end.

(** A square is a snake's head or a ladder's foot of the new game. *)
Definition is_jump_square (pos : Z) : bool :=
  dict_mem (snakes new_game) pos || dict_mem (ladders new_game) pos.

(** The state that every sequence of moves keeps: the two tables of the
    new game, two positions that are at most 100 and on no jump square, a
    current player 0 or 1, and a winner exactly when a player stands on
    100, who is then not the current player. *)
Definition well_formed (g : Game) : bool :=
  match positions g with
  | [p0; p1] =>
      ((p0 <=? 100) && (p1 <=? 100))%Z
      && negb (is_jump_square p0) && negb (is_jump_square p1)
      && ((current_player g =? 0) || (current_player g =? 1))%Z
      && match winner g with
         | None => negb (p0 =? 100)%Z && negb (p1 =? 100)%Z
         | Some w =>
             ((w =? 0) && (p0 =? 100) && negb (p1 =? 100)
                && (current_player g =? 1)
              || (w =? 1) && (p1 =? 100) && negb (p0 =? 100)
                   && (current_player g =? 0))%Z
         end
  | _ => false
  end.

End SnakeLadder.

(* ------------------------------------------------------------------ *)
(** ** The board of the game page (streamlit_app.py) *)

Module Board.

Import SnakeLadder.

(** The calls to the page that [draw_board] makes. *)
Inductive UiCall : Type :=
| StText (body : str)
| StMarkdown (body : str).

Definition snake_emoji : str := [128013%N].
Definition ladder_emoji : str := [129692%N].
Definition player1_emoji : str := [128308%N].
Definition player2_emoji : str := [128309%N].
Definition both_players_emoji : str := [128995%N].

(** [f"{cell:>4}"]: right-aligned in a field of [width] characters. *)
Definition rjust (width : nat) (s : str) : str :=
  repeat 32%N (width - List.length s) ++ s.

(** The text of the cell of square [num]. *)
Definition cell (positions : list Z) (snakes ladders : int_dict) (num : Z)
  : outcome str :=
  obind (py_index positions 0) (fun p0 =>
    if (p0 =? num)%Z then
      obind (py_index positions 1) (fun p1 =>
        if (p1 =? num)%Z then Returned both_players_emoji
        else Returned player1_emoji)
    else
      obind (py_index positions 1) (fun p1 =>
        if (p1 =? num)%Z then Returned player2_emoji
        else if dict_mem snakes num then Returned snake_emoji
        else if dict_mem ladders num then Returned ladder_emoji
        else Returned (str_of_int num))).

Fixpoint omapM {A B} (f : A -> outcome B) (l : list A) : outcome (list B) :=
  match l with
  | [] => Returned []
  | a :: l' =>
      obind (f a) (fun b => obind (omapM f l') (fun bs => Returned (b :: bs)))
  end.

(** [range(10, 0, -1)] and [range(1, 11)] *)
Definition rows : list Z := [10; 9; 8; 7; 6; 5; 4; 3; 2; 1]%Z.
Definition cols : list Z := [1; 2; 3; 4; 5; 6; 7; 8; 9; 10]%Z.

(** One pass of the inner loop and the newline that ends the row. *)
Definition row_text (positions : list Z) (snakes ladders : int_dict)
    (row : Z) : outcome str :=
  obind (omapM (fun col => cell positions snakes ladders
                             ((row - 1) * 10 + col)%Z) cols)
    (fun cells => Returned (List.concat (List.map (rjust 4) cells)
                            ++ [10%N])).

Definition board_text (positions : list Z) (snakes ladders : int_dict)
  : outcome str :=
  obind (omapM (row_text positions snakes ladders) rows)
    (fun lines => Returned (List.concat lines)).

Definition legend : str :=
  lit "**Legend:** " ++ snake_emoji ++ lit "=Snake, "
  ++ ladder_emoji ++ lit "=Ladder, "
  ++ player1_emoji ++ lit "=Player 1, "
  ++ player2_emoji ++ lit "=Player 2, "
  ++ both_players_emoji ++ lit "=Both Players".

(** [draw_board(positions, snakes, ladders)]: the calls it makes to the
    page, or the exception. *)
Definition draw_board (positions : list Z) (snakes ladders : int_dict)
  : outcome (list UiCall) :=
  obind (board_text positions snakes ladders)
    (fun board => Returned [StText board; StMarkdown legend]).

(** The text of a cell when the two positions are known. *)
Definition cell_of (p0 p1 : Z) (snakes ladders : int_dict) (num : Z) : str :=
  if (p0 =? num)%Z then
    if (p1 =? num)%Z then both_players_emoji else player1_emoji
  else if (p1 =? num)%Z then player2_emoji
  else if dict_mem snakes num then snake_emoji
  else if dict_mem ladders num then ladder_emoji
  else str_of_int num.

(** A cell text fits the field and has no newline. *)
Definition cell_ok (s : str) : bool :=
  (List.length s <=? 4) && negb (existsb (N.eqb 10) s).

(** One line of the board, without its newline. *)
Definition line_of (p0 p1 : Z) (snakes ladders : int_dict) (row : Z) : str :=
  List.concat
    (List.map (fun col => rjust 4 (cell_of p0 p1 snakes ladders
                                     ((row - 1) * 10 + col)%Z))
              cols).

End Board.

(* ------------------------------------------------------------------ *)
(** ** The language-code mapper in the words of section 4.3 *)

Module MapperSpec.

Definition upper_letters : str := lit "ABCDEFGHIJKLMNOPQRSTUVWXYZ".
Definition lower_letters : str := lit "abcdefghijklmnopqrstuvwxyz".

(** The letter of [lowers] at the place that [c] has in [uppers], and [c]
    itself when it is not in [uppers]. *)
Fixpoint letter_at (uppers lowers : str) (c : char) : char :=
  match uppers, lowers with
  | u :: uppers', l :: lowers' =>
      if N.eq_dec c u then l else letter_at uppers' lowers' c
  | _, _ => c
  end.

Definition lower_letter (c : char) : char :=
  letter_at upper_letters lower_letters c.

(** The lower-cased form of a code: letter by letter when all its
    characters are ASCII, by the Unicode database otherwise. *)
Definition lowered (unicode_lower : str -> str) (code : str) : str :=
  if forallb (fun c => (c <? 128)%N) code
  then List.map lower_letter code
  else unicode_lower code.

(** The irregular cases: the detector codes of each group and the
    translation code they map to. *)
Definition irregular : list (list string * string) :=
  [ (["zh-cn"; "zh-tw"; "zh"], "zh");
    (["pt-br"], "pt");
    (["sr"], "sr");
    (["jw"], "jv");
    (["iw"; "he"], "he");
    (["id"], "id");
    (["fil"], "tl");
    (["uk"], "uk");
    (["no"; "nb"; "nn"], "no") ]%string.

Definition same_code (a b : str) : bool :=
  if list_eq_dec N.eq_dec a b then true else false.

Fixpoint lookup (groups : list (list string * string)) (code : str)
  : option str :=
  match groups with
  | [] => None
  | (keys, v) :: rest =>
      if existsb (fun key => same_code code (lit key)) keys
      then Some (lit v)
      else lookup rest code
  end.

(** [map(detectorCode)]: "en" for an empty or missing code, the code of the
    irregular case of the lower-cased input when there is one, and its first
    two characters otherwise. *)
Definition translation_code (unicode_lower : str -> str)
    (detector_code : option str) : str :=
  match detector_code with
  | None => lit "en"
  | Some [] => lit "en"
  | Some code =>
      let l := lowered unicode_lower code in
      match lookup irregular l with
      | Some v => v
      | None => firstn 2 l
      end
  end.

End MapperSpec.

(** Case analysis on the comparisons of exponents and mantissas. *)
Ltac order_cases :=
  repeat (match goal with
          | |- context [PosDef.Pos.compare_cont Eq ?a ?b] =>
              change (PosDef.Pos.compare_cont Eq a b) with (Pos.compare a b)
          | H : context [PosDef.Pos.compare_cont Eq ?a ?b] |- _ =>
              change (PosDef.Pos.compare_cont Eq a b) with (Pos.compare a b)
                in H
          | |- context [Z.compare ?a ?b] => destruct (Z.compare_spec a b)
          | |- context [Pos.compare ?a ?b] => destruct (Pos.compare_spec a b)
          | H : context [Z.compare ?a ?b] |- _ => destruct (Z.compare_spec a b)
          | H : context [Pos.compare ?a ?b] |- _ =>
              destruct (Pos.compare_spec a b)
          end;
          cbv beta iota delta [CompOpp] in *);
  try reflexivity; try discriminate; try lia.

Section FloatOrder.

(** [x < y] excludes [y <= x]. *)
Lemma ltb_not_leb (x y : float) : SFltb x y = true -> SFleb y x = false.
Proof.
  unfold SFltb, SFleb.
  destruct x as [sx|sx| |sx mx ex], y as [sy|sy| |sy my ey]; simpl;
    try destruct sx; try destruct sy; simpl; try reflexivity;
    try discriminate; intro H; order_cases.
Qed.

(** [<=] is transitive. *)
Lemma leb_trans (x y z : float) :
  SFleb x y = true -> SFleb y z = true -> SFleb x z = true.
Proof.
  unfold SFleb.
  destruct x as [sx|sx| |sx mx ex], y as [sy|sy| |sy my ey],
           z as [sz|sz| |sz mz ez]; simpl;
    try destruct sx; try destruct sy; try destruct sz; simpl;
    try reflexivity; try discriminate; intros H1 H2; order_cases.
Qed.

(** [<=] is total away from NaN. *)
Lemma leb_total (x y : float) :
  x <> S754_nan -> y <> S754_nan -> SFleb x y = false -> SFltb y x = true.
Proof.
  unfold SFltb, SFleb.
  destruct x as [sx|sx| |sx mx ex], y as [sy|sy| |sy my ey]; simpl;
    try destruct sx; try destruct sy; simpl; try reflexivity;
    try discriminate; try congruence; intros _ _ H; order_cases.
Qed.

End FloatOrder.

(** Each float literal is a normal binary64 value within half a unit in
    the last place of its decimal, and [f100] is 100. *)
Lemma float_literals_nearest :
  forall (tenths : Z) (x : float),
    In (tenths, x) [(3, f0_3); (4, f0_4); (5, f0_5); (6, f0_6); (7, f0_7)]%Z ->
    exists (m : positive) (e : Z),
      x = S754_finite false m e /\
      (2 ^ 52 <= Zpos m < 2 ^ 53)%Z /\
      (2 * Z.abs (10 * Zpos m - tenths * 2 ^ (- e)) <= 10)%Z.
Proof.
  intros tenths x H. simpl in H.
  repeat (destruct H as [H | H];
          [inversion H; subst; do 2 eexists;
           split; [reflexivity|]; split; [split; reflexivity || (vm_compute; congruence) | vm_compute; congruence] |]).
  contradiction.
Qed.

Lemma f100_exact : f100 = S754_finite false (Z.to_pos (100 * 2 ^ 46)) (-46).
Proof. reflexivity. Qed.

(** No value lies above [b] and below [a] when [b <= a] fails. *)
Lemma leb_gap (a b x : float) :
  SFleb b a = false -> SFleb b x = true -> SFleb x a = false.
Proof.
  intros Hba Hbx. destruct (SFleb x a) eqn:Hxa; [|reflexivity].
  rewrite (leb_trans _ _ _ Hbx Hxa) in Hba. discriminate.
Qed.

(* ------------------------------------------------------------------ *)
(** ** Verdicts and sentence colours *)

(** C5. [verdict_from_score] is a total function of the score with three
    buckets that do not overlap: a score of at least 0.6 is "Likely True"
    (green), a score of at most 0.4 is "Likely False" (red), a score
    strictly between 0.4 and 0.6 is "Uncertain" (amber); every score gets
    exactly one of the three verdicts, every score that is a number falls
    in one of the three buckets, and 0.6, 0.4 and 0.5 get "Likely True",
    "Likely False" and "Uncertain". *)
Theorem verdict_from_score_buckets :
  forall s : float,
    (ge s f0_6 = true -> verdict_from_score s = Spec.likely_true) /\
    (le s f0_4 = true -> verdict_from_score s = Spec.likely_false) /\
    (lt f0_4 s = true -> lt s f0_6 = true ->
     verdict_from_score s = Spec.uncertain) /\
    ((verdict_from_score s = Spec.likely_true /\ ge s f0_6 = true) \/
     (verdict_from_score s = Spec.likely_false /\
      ge s f0_6 = false /\ le s f0_4 = true) \/
     (verdict_from_score s = Spec.uncertain /\
      ge s f0_6 = false /\ le s f0_4 = false)) /\
    (s <> S754_nan ->
     ge s f0_6 = true \/ le s f0_4 = true \/
     (lt f0_4 s = true /\ lt s f0_6 = true)) /\
    ~ (ge s f0_6 = true /\ le s f0_4 = true) /\
    (Spec.likely_true <> Spec.likely_false /\
     Spec.likely_true <> Spec.uncertain /\
     Spec.likely_false <> Spec.uncertain) /\
    verdict_from_score f0_6 = Spec.likely_true /\
    verdict_from_score f0_4 = Spec.likely_false /\
    verdict_from_score f0_5 = Spec.uncertain.
Proof.
  intro s.
  assert (Hgap : ge s f0_6 = true -> le s f0_4 = false).
  { unfold ge, le. apply leb_gap. reflexivity. }
  unfold verdict_from_score.
  split; [|split; [|split; [|split; [|split; [|split]]]]].
  - intros H. rewrite H. reflexivity.
  - intros H. destruct (ge s f0_6) eqn:G.
    + rewrite (Hgap eq_refl) in H. discriminate.
    + rewrite H. reflexivity.
  - intros H4 H6. unfold ge, le, lt in *.
    rewrite (ltb_not_leb _ _ H6), (ltb_not_leb _ _ H4). reflexivity.
  - destruct (ge s f0_6) eqn:G; [left; auto|].
    destruct (le s f0_4) eqn:L; [right; left; auto | right; right; auto].
  - intro Hnan. unfold ge, le, lt.
    destruct (SFleb f0_6 s) eqn:G; [left; reflexivity|].
    destruct (SFleb s f0_4) eqn:L; [right; left; reflexivity|].
    right; right. split; apply leb_total; try assumption; discriminate.
  - intros [G L]. rewrite (Hgap G) in L. discriminate.
  - repeat split; discriminate.
Qed.

Lemma verdict_from_score_buckets_witness :
  verdict_from_score f0_7 = Spec.likely_true /\
  verdict_from_score f0_3 = Spec.likely_false /\
  verdict_from_score f0_5 = Spec.uncertain /\
  (ge f0_5 f0_6 = true \/ le f0_5 f0_4 = true \/
   (lt f0_4 f0_5 = true /\ lt f0_5 f0_6 = true)).
Proof.
  split; [|split; [|split]].
  - apply (proj1 (verdict_from_score_buckets f0_7)). reflexivity.
  - apply (proj1 (proj2 (verdict_from_score_buckets f0_3))). reflexivity.
  - apply (proj1 (proj2 (proj2 (verdict_from_score_buckets f0_5))));
      reflexivity.
  - apply (proj1 (proj2 (proj2 (proj2 (proj2
             (verdict_from_score_buckets f0_5)))))).
    discriminate.
Defined.

(** C6. [sentence_bg_color] returns the colour of the first check that
    holds in the order >= 0.7 (light green), >= 0.6 (pale green), <= 0.3
    (light red), <= 0.4 (pale red), and pale yellow when none holds; so
    [0.6, 0.7) is pale green, (0.3, 0.4] pale red, the open interval
    (0.4, 0.6) pale yellow, and 0.65 is pale green. *)
Theorem sentence_bg_color_first_match :
  forall s : float,
    sentence_bg_color s = Spec.first_match Spec.bg_checks Spec.pale_yellow s /\
    (ge s f0_7 = true -> sentence_bg_color s = Spec.light_green) /\
    (ge s f0_6 = true -> lt s f0_7 = true ->
     sentence_bg_color s = Spec.pale_green) /\
    (le s f0_3 = true -> sentence_bg_color s = Spec.light_red) /\
    (lt f0_3 s = true -> le s f0_4 = true ->
     sentence_bg_color s = Spec.pale_red) /\
    (lt f0_4 s = true -> lt s f0_6 = true ->
     sentence_bg_color s = Spec.pale_yellow) /\
    sentence_bg_color Spec.f0_65 = Spec.pale_green.
Proof.
  intro s.
  assert (H76 : ge s f0_6 = false -> ge s f0_7 = false).
  { unfold ge. intro H. destruct (SFleb f0_7 s) eqn:G; [|reflexivity].
    rewrite (leb_trans f0_6 f0_7 s eq_refl G) in H. discriminate. }
  assert (H34 : le s f0_4 = false -> le s f0_3 = false).
  { unfold le. intro H. destruct (SFleb s f0_3) eqn:G; [|reflexivity].
    rewrite (leb_trans s f0_3 f0_4 G eq_refl) in H. discriminate. }
  assert (H46 : le s f0_4 = true -> ge s f0_6 = false).
  { unfold ge, le. intro H. destruct (SFleb f0_6 s) eqn:G; [|reflexivity].
    rewrite (leb_gap f0_4 f0_6 s eq_refl G) in H. discriminate. }
  unfold sentence_bg_color.
  repeat split.
  - intros H. rewrite H. reflexivity.
  - intros H6 H7. unfold ge, lt in *.
    rewrite (ltb_not_leb _ _ H7), H6. reflexivity.
  - intros H3. destruct (le s f0_4) eqn:L4.
    + rewrite (H76 (H46 eq_refl)), (H46 eq_refl), H3. reflexivity.
    + rewrite (H34 eq_refl) in H3. discriminate.
  - intros H3 H4. rewrite (H76 (H46 H4)), (H46 H4), H4.
    unfold le, lt in *. rewrite (ltb_not_leb _ _ H3). reflexivity.
  - intros H4 H6. unfold ge, le, lt in *.
    pose proof (ltb_not_leb _ _ H6) as G6.
    pose proof (ltb_not_leb _ _ H4) as L4.
    fold (ge s f0_6) in G6. fold (le s f0_4) in L4.
    unfold ge, le in *.
    rewrite (H76 G6), G6, (H34 L4), L4. reflexivity.
Qed.

Lemma sentence_bg_color_first_match_witness :
  sentence_bg_color f0_7 = Spec.light_green /\
  sentence_bg_color Spec.f0_65 = Spec.pale_green /\
  sentence_bg_color f0_3 = Spec.light_red /\
  sentence_bg_color f0_4 = Spec.pale_red /\
  sentence_bg_color f0_5 = Spec.pale_yellow.
Proof.
  split; [|split; [|split; [|split]]].
  - apply (proj1 (proj2 (sentence_bg_color_first_match f0_7))). reflexivity.
  - apply (proj1 (proj2 (proj2 (sentence_bg_color_first_match Spec.f0_65))));
      reflexivity.
  - apply (proj1 (proj2 (proj2 (proj2
             (sentence_bg_color_first_match f0_3))))). reflexivity.
  - apply (proj1 (proj2 (proj2 (proj2 (proj2
             (sentence_bg_color_first_match f0_4)))))); reflexivity.
  - apply (proj1 (proj2 (proj2 (proj2 (proj2 (proj2
             (sentence_bg_color_first_match f0_5))))))); reflexivity.
Defined.

(* ------------------------------------------------------------------ *)
(** ** The language-code mapper *)


(* ------------------------------------------------------------------ *)
(** ** HTML escaping *)

Lemma flat_map_flat_map {A B C} (f : A -> list B) (g : B -> list C) l :
  flat_map g (flat_map f l) = flat_map (fun a => flat_map g (f a)) l.
Proof.
  induction l as [|a l IH]; simpl; [reflexivity|].
  rewrite flat_map_app, IH. reflexivity.
Qed.

(** The three replacements in the order of the source act on one character
    as the simultaneous substitution does. *)
Lemma escape_one_char (c : char) :
  replace 62%N (lit "&gt;") (replace 60%N (lit "&lt;")
    (if (c =? 38)%N then lit "&amp;" else [c])) = Spec.escape_char c.
Proof.
  unfold Spec.escape_char.
  destruct (N.eqb_spec c 38) as [->|H38]; [reflexivity|].
  unfold replace at 2. simpl flat_map.
  destruct (N.eqb_spec c 60) as [->|H60]; [reflexivity|].
  unfold replace. simpl flat_map.
  destruct (N.eqb_spec c 62) as [->|H62]; reflexivity.
Qed.

(** C9. [_escape_html] replaces exactly the characters &, < and > with
    their entities, & first, so that the & of an entity written by a later
    replacement is never escaped again: the result is the simultaneous
    substitution of the three characters; "<b>&1</b>" becomes
    "&lt;b&gt;&amp;1&lt;/b&gt;". *)
Theorem escape_html_simultaneous :
  (forall text : str, _escape_html text = Spec.escape text) /\
  (forall c : char,
      Spec.escape_char c =
      if ((c =? 38) || (c =? 60) || (c =? 62))%N
      then Spec.escape_char c else [c]) /\
  Spec.escape_char 38%N = lit "&amp;" /\
  Spec.escape_char 60%N = lit "&lt;" /\
  Spec.escape_char 62%N = lit "&gt;" /\
  _escape_html (lit "<b>&1</b>") = lit "&lt;b&gt;&amp;1&lt;/b&gt;".
Proof.
  split; [|split; [|repeat split]].
  - intro text. unfold _escape_html, Spec.escape.
    unfold replace at 3. unfold replace at 2. unfold replace at 1.
    rewrite !flat_map_flat_map.
    apply flat_map_ext. intro c.
    pose proof (escape_one_char c) as H. unfold replace in H.
    rewrite <- H. rewrite flat_map_flat_map. reflexivity.
  - intro c. unfold Spec.escape_char.
    destruct (c =? 38)%N; [reflexivity|].
    destruct (c =? 60)%N; [reflexivity|].
    destruct (c =? 62)%N; reflexivity.
Qed.

(* ------------------------------------------------------------------ *)
(** ** Whitespace and trimming *)

Lemma lstrip_app (a b : str) :
  lstrip (a ++ b) = match lstrip a with [] => lstrip b | _ => lstrip a ++ b end.
Proof.
  induction a as [|c a IH]; simpl.
  - destruct (lstrip b); reflexivity.
  - destruct (isspace c); [exact IH | reflexivity].
Qed.

Lemma lstrip_spaces (ws : str) : forallb isspace ws = true -> lstrip ws = [].
Proof.
  induction ws as [|c ws IH]; simpl; [reflexivity|].
  destruct (isspace c); simpl; [exact IH | discriminate].
Qed.

Lemma lstrip_nil_spaces (s : str) : lstrip s = [] -> forallb isspace s = true.
Proof.
  induction s as [|c s IH]; simpl; [reflexivity|].
  destruct (isspace c); simpl; [exact IH | discriminate].
Qed.

(** [s.rstrip()], one character at a time. *)
Lemma rstrip_cons (c : char) (s : str) :
  rstrip (c :: s) =
  match rstrip s with
  | [] => if isspace c then [] else [c]
  | r => c :: r
  end.
Proof.
  unfold rstrip. simpl rev. rewrite lstrip_app.
  destruct (lstrip (rev s)) as [|x l] eqn:E.
  - simpl. destruct (isspace c); reflexivity.
  - rewrite rev_app_distr. change (rev [c]) with [c].
    destruct (rev (x :: l)) eqn:R; [|reflexivity].
    apply (f_equal (@rev char)) in R. rewrite rev_involutive in R.
    discriminate.
Qed.

Lemma rstrip_spaces (ws : str) : forallb isspace ws = true -> rstrip ws = [].
Proof.
  induction ws as [|c ws IH]; [reflexivity|]. simpl. intro H.
  apply andb_prop in H. destruct H as [Hc Hws].
  rewrite rstrip_cons, (IH Hws), Hc. reflexivity.
Qed.

Lemma rstrip_nil_spaces (s : str) : rstrip s = [] -> forallb isspace s = true.
Proof.
  induction s as [|c s IH]; [reflexivity|]. rewrite rstrip_cons. simpl.
  destruct (rstrip s); [|discriminate].
  destruct (isspace c); [intros _; apply IH; reflexivity | discriminate].
Qed.

(** Trimming on the left and on the right commute. *)
Lemma strip_lstrip_rstrip (s : str) : strip s = lstrip (rstrip s).
Proof.
  unfold strip. induction s as [|c s IH]; [reflexivity|].
  simpl lstrip at 1. rewrite (rstrip_cons c s).
  destruct (isspace c) eqn:Hc.
  - rewrite IH. destruct (rstrip s) eqn:R; [reflexivity|].
    simpl. rewrite Hc. reflexivity.
  - rewrite rstrip_cons. destruct (rstrip s); simpl; rewrite Hc; reflexivity.
Qed.

(** A string trims to the empty string exactly when it is whitespace only
    (or empty). *)
Lemma strip_nil_iff (s : str) : strip s = [] <-> forallb isspace s = true.
Proof.
  split.
  - unfold strip. intro H. apply rstrip_nil_spaces in H.
    induction s as [|c s IH]; [reflexivity|]. simpl in *.
    destruct (isspace c) eqn:Hc; simpl in *.
    + apply IH. exact H.
    + rewrite Hc in H. discriminate.
  - intro H. unfold strip. rewrite (lstrip_spaces _ H). reflexivity.
Qed.

(* ------------------------------------------------------------------ *)
(** ** Empty input and English input *)

(** C1, as the code has it.  For the input [None], the empty string and
    every whitespace-only string, [process] returns the empty-result record
    and calls no collaborator: [overall_true_score] is 0.5,
    [verdict_color] is the neutral grey "#6b7280", [detected_language],
    [translated_text], [verdict_label] and [highlighted_html] are empty
    strings and [sentence_scores] is the empty list. *)
Theorem process_empty_input :
  forall (unicode_lower : str -> str) (be : Backend),
    run (process unicode_lower be None) = (Returned Spec.empty_result, []) /\
    (forall s : str,
        forallb isspace s = true ->
        run (process unicode_lower be (Some s))
        = (Returned Spec.empty_result, [])) /\
    overall_true_score Spec.empty_result = f0_5 /\
    verdict_color Spec.empty_result = lit "#6b7280" /\
    detected_language Spec.empty_result = [] /\
    translated_text Spec.empty_result = [] /\
    verdict_label Spec.empty_result = [] /\
    highlighted_html Spec.empty_result = [] /\
    sentence_scores Spec.empty_result = [].
Proof.
  intros ul be. split; [reflexivity|]. split; [|repeat split].
  intros s Hs. apply strip_nil_iff in Hs.
  unfold process. destruct s as [|c s]; [reflexivity|].
  simpl is_empty at 1. cbv iota. rewrite Hs. reflexivity.
Qed.

Lemma process_empty_input_witness :
  run (process Fixtures.lower_ascii_only Fixtures.failing_backend
         (Some [32; 9; 10; 12288]%N))
  = (Returned Spec.empty_result, []).
Proof.
  apply (proj1 (proj2 (process_empty_input Fixtures.lower_ascii_only
                         Fixtures.failing_backend))).
  reflexivity.
Defined.

(** C1 as worded fails on the empty string: the record that [process]
    returns has a [verdict_color] that is not the empty string. *)
Lemma process_empty_input_counterexample :
  ~ (exists r : ProcessResult,
        run (process Fixtures.lower_ascii_only Fixtures.failing_backend
               (Some []))
        = (Returned r, []) /\
        overall_true_score r = f0_5 /\
        detected_language r = [] /\ translated_text r = [] /\
        verdict_label r = [] /\ verdict_color r = [] /\
        highlighted_html r = [] /\ sentence_scores r = []).
Proof.
  intros [r [Hrun [_ [_ [_ [_ [Hcolor _]]]]]]].
  vm_compute in Hrun. inversion Hrun; subst r. discriminate Hcolor.
Qed.

(** C2, as the code has it.  When the language code starts with "en",
    [translate_to_english] calls no collaborator and returns the empty
    string for a text that trims to nothing and the text itself otherwise;
    so it is the identity on the empty text and on every text with a
    character that is not whitespace. *)
Theorem translate_english_identity :
  forall (unicode_lower : str -> str) (be : Backend) (text src_lang : str),
    startswith src_lang (lit "en") = true ->
    run (translate_to_english unicode_lower be text src_lang)
    = (Returned (if is_empty (strip text) then [] else text), []) /\
    (text = [] \/ is_empty (strip text) = false ->
     run (translate_to_english unicode_lower be text src_lang)
     = (Returned text, [])).
Proof.
  intros ul be text src_lang Hen.
  assert (E : run (translate_to_english ul be text src_lang)
              = (Returned (if is_empty (strip text) then [] else text), [])).
  { unfold translate_to_english.
    destruct (is_empty (strip text)); [reflexivity|].
    rewrite Hen. reflexivity. }
  split; [exact E|].
  intros [-> | Hne]; rewrite E.
  - reflexivity.
  - rewrite Hne. reflexivity.
Qed.

Lemma translate_english_identity_witness :
  run (translate_to_english Fixtures.lower_ascii_only Fixtures.failing_backend
         (lit " Breaking news. ") (lit "en-US"))
  = (Returned (lit " Breaking news. "), []).
Proof.
  apply (proj2 (translate_english_identity Fixtures.lower_ascii_only
                  Fixtures.failing_backend (lit " Breaking news. ")
                  (lit "en-US") eq_refl)).
  right. reflexivity.
Defined.

(** C2 as worded fails on a text of one space with the code "en": the
    result is the empty string, not the text. *)
Lemma translate_english_identity_counterexample :
  startswith (lit "en") (lit "en") = true /\
  fst (run (translate_to_english Fixtures.lower_ascii_only
              Fixtures.failing_backend (lit " ") (lit "en")))
  <> Returned (lit " ").
Proof.
  split; [reflexivity|]. vm_compute. discriminate.
Qed.

(* ------------------------------------------------------------------ *)
(** ** Dictionaries and slices *)

Lemma str_eqb_eq (a b : str) : str_eqb a b = true <-> a = b.
Proof.
  revert b. induction a as [|x a IH]; intros [|y b]; simpl;
    try (split; [discriminate | discriminate]); try tauto.
  rewrite andb_true_iff, N.eqb_eq, IH. split.
  - intros [-> ->]. reflexivity.
  - intros H. inversion H. auto.
Qed.

Lemma str_eqb_neq (a b : str) : a <> b -> str_eqb a b = false.
Proof.
  intro H. destruct (str_eqb a b) eqn:E; [|reflexivity].
  apply str_eqb_eq in E. contradiction.
Qed.

(** Writing the key [k] leaves the lookup of another key alone. *)
Lemma get_set_other {V} (d : PyDict.dict V) (k k' : str) (v : V) :
  k' <> k -> PyDict.get (PyDict.set d k v) k' = PyDict.get d k'.
Proof.
  intro Hne. induction d as [|[k0 v0] d IH]; simpl.
  - rewrite (str_eqb_neq Hne). reflexivity.
  - destruct (str_eqb k k0) eqn:E; simpl.
    + apply str_eqb_eq in E. subst k0.
      rewrite (str_eqb_neq Hne). reflexivity.
    + rewrite IH. reflexivity.
Qed.


Lemma skipn_length_firstn {A} (n : nat) (l : list A) :
  skipn (List.length (firstn n l)) l = skipn n l.
Proof.
  revert l. induction n as [|n IH]; intros [|a l]; simpl; try reflexivity.
  apply IH.
Qed.

Lemma slice_to_firstn {A} (l : list A) (n : Z) :
  exists k : nat, slice_to l n = firstn k l.
Proof.
  unfold slice_to. destruct (0 <=? n)%Z; eexists; reflexivity.
Qed.

Lemma slice_to_nat {A} (l : list A) (cap : nat) :
  slice_to l (Z.of_nat cap) = firstn cap l.
Proof.
  unfold slice_to.
  destruct (Z.leb_spec 0 (Z.of_nat cap)); [|lia].
  rewrite Nat2Z.id. reflexivity.
Qed.

(** [l[:n] + l[len(l[:n]):]] is [l], for every integer [n]. *)
Lemma slice_to_rest {A} (l : list A) (n : Z) :
  slice_to l n ++ skipn (List.length (slice_to l n)) l = l.
Proof.
  destruct (slice_to_firstn l n) as [k ->].
  rewrite skipn_length_firstn. apply firstn_skipn.
Qed.

Lemma map_fst_combine {A B} (l : list A) (l' : list B) :
  List.length l' = List.length l -> List.map fst (combine l l') = l.
Proof.
  revert l'. induction l as [|a l IH]; intros [|b l'] H; simpl in *;
    try reflexivity; try discriminate.
  rewrite IH; [reflexivity | congruence].
Qed.


(** The prefix of [l] that [zip(l, l')] keeps. *)
Lemma map_fst_combine_prefix {A B} (l : list A) (l' : list B) :
  List.map fst (combine l l') = firstn (List.length l') l.
Proof.
  revert l'. induction l as [|a l IH]; intros [|b l']; simpl;
    try reflexivity.
  rewrite IH. reflexivity.
Qed.

(* ------------------------------------------------------------------ *)
(** ** The truth classifier *)

Section Classifier.

Variable unicode_lower : str -> str.
Variable be : Backend.


(** One run of [classify_sentences] on a list with a sentence: a single
    batched call, then the scores of the zipped pairs and the neutral
    score for the rest. *)
Lemma classify_sentences_run (s : str) (rest : list str) (cap : Z) :
  let sentences := s :: rest in
  let limited := slice_to sentences cap in
  run (classify_sentences unicode_lower be sentences cap)
  = (match zero_shot_batch be limited candidate_labels hypothesis_template with
     | Returned results =>
         Returned (List.map (Spec.scored unicode_lower)
                            (combine limited results)
                   ++ List.map Spec.neutral
                        (skipn (List.length limited) sentences))
     | Raised e => Raised e
     end,
     [CallZeroShotBatch limited candidate_labels hypothesis_template false]).
Proof.
  cbv zeta. unfold classify_sentences, run, bind, call, ret.
  simpl app.
  destruct (zero_shot_batch be (slice_to (s :: rest) cap) candidate_labels
              hypothesis_template); reflexivity.
Qed.

End Classifier.



Lemma map_fst_combine_length {A B} (l : list A) (l' : list B) :
  List.map fst (combine l l') = firstn (List.length (combine l l')) l.
Proof.
  revert l'. induction l as [|a l IH]; intros [|b l']; simpl;
    try reflexivity.
  rewrite IH. reflexivity.
Qed.

(** C4. [classify_sentences] on the empty list returns the empty list and
    calls nothing.  On a list with a sentence it makes exactly one batched
    call, whose argument is the first [cap] sentences in order (at most
    [cap] of them); when the call returns, the result is the scores of the
    classified prefix followed by the neutral score 0.5 for every sentence
    from index [cap] on, and those sentences are never sent. *)
Theorem classify_sentences_cap :
  forall (unicode_lower : str -> str) (be : Backend) (cap : nat),
    run (classify_sentences unicode_lower be [] (Z.of_nat cap))
    = (Returned [], []) /\
    (forall (s : str) (rest : list str),
        let sentences := s :: rest in
        let limited := firstn cap sentences in
        run (classify_sentences unicode_lower be sentences (Z.of_nat cap))
        = (match zero_shot_batch be limited candidate_labels
                   hypothesis_template with
           | Returned results =>
               Returned (List.map (Spec.scored unicode_lower)
                                  (combine limited results)
                         ++ List.map Spec.neutral (skipn cap sentences))
           | Raised e => Raised e
           end,
           [CallZeroShotBatch limited candidate_labels hypothesis_template
              false]) /\
        List.length limited <= cap /\
        (forall out : list SentenceScore,
            fst (run (classify_sentences unicode_lower be sentences
                        (Z.of_nat cap))) = Returned out ->
            exists classified : list SentenceScore,
              out = classified ++ List.map Spec.neutral (skipn cap sentences) /\
              List.length classified <= cap /\
              List.map sentence classified
              = firstn (List.length classified) sentences)).
Proof.
  intros ul be cap. split; [reflexivity|].
  intros s rest sentences limited.
  assert (Hrun :
    run (classify_sentences ul be sentences (Z.of_nat cap))
    = (match zero_shot_batch be limited candidate_labels
               hypothesis_template with
       | Returned results =>
           Returned (List.map (Spec.scored ul) (combine limited results)
                     ++ List.map Spec.neutral (skipn cap sentences))
       | Raised e => Raised e
       end,
       [CallZeroShotBatch limited candidate_labels hypothesis_template
          false])).
  { unfold sentences, limited. rewrite classify_sentences_run. cbv zeta.
    rewrite slice_to_nat, skipn_length_firstn. reflexivity. }
  assert (Hlen : List.length limited <= cap).
  { unfold limited. rewrite length_firstn. lia. }
  split; [exact Hrun|]. split; [exact Hlen|].
  intros out Hout. rewrite Hrun in Hout. simpl fst in Hout.
  destruct (zero_shot_batch be limited candidate_labels hypothesis_template)
    as [results|e]; [|discriminate].
  inversion Hout; subst out; clear Hout.
  exists (List.map (Spec.scored ul) (combine limited results)).
  assert (Hc : List.length (combine limited results) <= cap).
  { rewrite length_combine. lia. }
  split; [reflexivity|]. split.
  - rewrite length_map. exact Hc.
  - rewrite map_map, length_map. simpl.
    change (fun x : str * ZeroShotResult => fst x) with (@fst str ZeroShotResult).
    rewrite map_fst_combine_length.
    generalize dependent (List.length (combine limited results)).
    intros n Hn. unfold limited.
    rewrite firstn_firstn. f_equal. lia.
Qed.

Lemma classify_sentences_cap_witness :
  exists classified : list SentenceScore,
    [ {| sentence := lit "One."; true_score := f0_7 |};
      {| sentence := lit "Two."; true_score := f0_7 |};
      Spec.neutral (lit "Three.") ]
    = classified ++ List.map Spec.neutral [lit "Three."] /\
    List.length classified <= 2 /\
    List.map sentence classified
    = firstn (List.length classified) [lit "One."; lit "Two."; lit "Three."].
Proof.
  pose proof (classify_sentences_cap Fixtures.lower_ascii_only
                (Fixtures.constant_backend Fixtures.both_labels) 2) as H.
  destruct H as [_ H].
  specialize (H (lit "One.") [lit "Two."; lit "Three."]).
  cbv zeta in H. destruct H as [_ [_ H]].
  apply H. reflexivity.
Defined.

(** C10, as the code has it.  [classify_sentences] returns the empty list
    for the empty list; and whenever the batched call returns at least one
    response item per submitted sentence (items beyond the submitted
    sentences are ignored), the result has the length of the input and its
    i-th [sentence] field is the i-th input sentence, below and above the
    cap, for every integer cap; with fewer items than submitted sentences
    the result is shorter than the input. *)
Theorem classify_sentences_preserves_sentences :
  forall (unicode_lower : str -> str) (be : Backend) (cap : Z),
    fst (run (classify_sentences unicode_lower be [] cap)) = Returned [] /\
    (forall (sentences : list str) (results : list ZeroShotResult),
        zero_shot_batch be (slice_to sentences cap) candidate_labels
          hypothesis_template = Returned results ->
        List.length (slice_to sentences cap) <= List.length results ->
        exists out : list SentenceScore,
          fst (run (classify_sentences unicode_lower be sentences cap))
          = Returned out /\
          List.length out = List.length sentences /\
          List.map sentence out = sentences) /\
    (forall (sentences : list str) (results : list ZeroShotResult),
        zero_shot_batch be (slice_to sentences cap) candidate_labels
          hypothesis_template = Returned results ->
        List.length results < List.length (slice_to sentences cap) ->
        exists out : list SentenceScore,
          fst (run (classify_sentences unicode_lower be sentences cap))
          = Returned out /\
          List.length out < List.length sentences).
Proof.
  intros ul be cap. split; [reflexivity|]. split.
  2: { intros sentences results Hres Hlen.
       destruct sentences as [|s rest].
       { destruct (slice_to_firstn (@nil str) cap) as [k Hk].
         rewrite Hk, firstn_nil in Hlen. simpl in Hlen. lia. }
       rewrite classify_sentences_run. cbv zeta. rewrite Hres. simpl fst.
       eexists. split; [reflexivity|].
       rewrite length_app, !length_map, length_combine, length_skipn.
       destruct (slice_to_firstn (s :: rest) cap) as [k Hk].
       rewrite Hk in *. rewrite length_firstn in *. lia. }
  intros sentences results Hres Hlen.
  destruct sentences as [|s rest].
  { exists []. repeat split. }
  rewrite classify_sentences_run. cbv zeta. rewrite Hres. simpl fst.
  eexists. split; [reflexivity|].
  assert (Hmap :
    List.map sentence
      (List.map (Spec.scored ul) (combine (slice_to (s :: rest) cap) results)
       ++ List.map Spec.neutral
            (skipn (List.length (slice_to (s :: rest) cap)) (s :: rest)))
    = s :: rest).
  { rewrite map_app, !map_map. simpl.
    change (fun x : str * ZeroShotResult => fst x)
      with (@fst str ZeroShotResult).
    rewrite map_fst_combine_prefix, (firstn_all2 _ Hlen), map_id.
    apply slice_to_rest. }
  split; [|exact Hmap].
  rewrite <- (length_map sentence), Hmap. reflexivity.
Qed.

Lemma classify_sentences_preserves_sentences_witness :
  exists out : list SentenceScore,
    fst (run (classify_sentences Fixtures.lower_ascii_only
                (Fixtures.constant_backend Fixtures.both_labels)
                [lit "One."; lit "Two."; lit "Three."] 2))
    = Returned out /\
    List.length out = 3 /\
    List.map sentence out = [lit "One."; lit "Two."; lit "Three."].
Proof.
  apply (proj1 (proj2 (classify_sentences_preserves_sentences
                         Fixtures.lower_ascii_only
                         (Fixtures.constant_backend Fixtures.both_labels) 2))
           [lit "One."; lit "Two."; lit "Three."]
           [Fixtures.both_labels; Fixtures.both_labels]);
    [reflexivity | apply le_n].
Defined.

(** C10 as worded fails for a batched response with no item: the result
    for one sentence is the empty list. *)
Lemma classify_sentences_preserves_sentences_counterexample :
  zero_shot_batch Fixtures.short_backend [lit "One."] candidate_labels
    hypothesis_template = Returned [] /\
  ~ (exists out : list SentenceScore,
        fst (run (classify_sentences Fixtures.lower_ascii_only
                    Fixtures.short_backend [lit "One."] 40))
        = Returned out /\
        List.length out = List.length [lit "One."]).
Proof.
  split; [reflexivity|].
  intros [out [Hrun Hlen]]. vm_compute in Hrun.
  inversion Hrun; subst out. discriminate Hlen.
Qed.

(* ------------------------------------------------------------------ *)
(** ** The sentence splitter *)

Section Splitter.

Import Spec.

Lemma stripped_nonempty_trimmed (parts : list str) :
  stripped_nonempty parts = trimmed_nonempty parts.
Proof.
  unfold stripped_nonempty, trimmed_nonempty.
  induction parts as [|p parts IH]; simpl; [reflexivity|].
  destruct (is_empty (strip p)); simpl; rewrite IH; reflexivity.
Qed.

Lemma trimmed_nonempty_cons (f : str) (fs : list str) :
  trimmed_nonempty (f :: fs)
  = (if is_empty (lstrip (rstrip f)) then [] else [lstrip (rstrip f)])
    ++ trimmed_nonempty fs.
Proof.
  unfold trimmed_nonempty. simpl. rewrite strip_lstrip_rstrip.
  destruct (is_empty (lstrip (rstrip f))); reflexivity.
Qed.

Lemma same_upto_trailing_space_trimmed (xs ys : list str) :
  same_upto_trailing_space xs ys -> trimmed_nonempty xs = trimmed_nonempty ys.
Proof.
  destruct xs as [|f fs], ys as [|g gs]; simpl; try contradiction.
  intros [Hf Hfs]. rewrite !trimmed_nonempty_cons, Hf, Hfs. reflexivity.
Qed.

Lemma same_upto_trailing_space_push (c : char) (xs ys : list str) :
  same_upto_trailing_space xs ys ->
  same_upto_trailing_space (push c xs) (push c ys).
Proof.
  destruct xs as [|f fs], ys as [|g gs]; simpl; try contradiction.
  intros [Hf Hfs]. split; [|exact Hfs].
  rewrite !rstrip_cons, Hf. reflexivity.
Qed.

Lemma same_upto_trailing_space_sep (xs ys : list str) :
  same_upto_trailing_space xs ys ->
  same_upto_trailing_space ([] :: xs) ([] :: ys).
Proof.
  intro H. split; [reflexivity|].
  apply same_upto_trailing_space_trimmed. exact H.
Qed.

(** Splitting a whitespace-only text leaves nothing after trimming. *)
Lemma re_split_spaces (ws : str) :
  forallb isspace ws = true ->
  forall in_sep after_term,
    same_upto_trailing_space (re_split in_sep after_term ws) [[]].
Proof.
  induction ws as [|c ws IH]; intros Hws in_sep after_term.
  - simpl. split; reflexivity.
  - simpl in Hws. apply andb_prop in Hws. destruct Hws as [Hc Hws].
    simpl. rewrite Hc.
    destruct in_sep; [apply IH; exact Hws|].
    destruct after_term.
    + split; [reflexivity|].
      apply (same_upto_trailing_space_trimmed _ _ (IH Hws true false)).
    + specialize (IH Hws false false).
      destruct (re_split false false ws) as [|f fs]; simpl in *;
        [contradiction|].
      destruct IH as [Hf Hfs]. split; [|exact Hfs].
      rewrite rstrip_cons, Hf, Hc. reflexivity.
Qed.

(** Whitespace at the end of the text does not change the sentences. *)
Lemma re_split_rstrip (t : str) :
  forall in_sep after_term,
    same_upto_trailing_space (re_split in_sep after_term t)
                             (re_split in_sep after_term (rstrip t)).
Proof.
  induction t as [|c t IH]; intros in_sep after_term.
  - simpl. split; reflexivity.
  - rewrite rstrip_cons. destruct (rstrip t) as [|x r] eqn:R.
    + pose proof (rstrip_nil_spaces _ R) as Hws.
      destruct (isspace c) eqn:Hc.
      * apply re_split_spaces. simpl. rewrite Hc, Hws. reflexivity.
      * simpl. rewrite Hc.
        pose proof (re_split_spaces _ Hws false (terminator c)) as H.
        apply (same_upto_trailing_space_push c) in H. exact H.
    + simpl. destruct (isspace c).
      * destruct in_sep; [apply IH|].
        destruct after_term.
        -- apply same_upto_trailing_space_sep, IH.
        -- apply same_upto_trailing_space_push, IH.
      * apply same_upto_trailing_space_push, IH.
Qed.

Lemma strip_cons_space (c : char) (f : str) :
  isspace c = true -> strip (c :: f) = strip f.
Proof. intro Hc. unfold strip. simpl. rewrite Hc. reflexivity. Qed.

Lemma trimmed_nonempty_push_space (c : char) (xs : list str) :
  isspace c = true -> trimmed_nonempty (push c xs) = trimmed_nonempty xs.
Proof.
  intro Hc. unfold trimmed_nonempty.
  destruct xs as [|f fs]; simpl; rewrite strip_cons_space by exact Hc;
    reflexivity.
Qed.

(** Whitespace at the start of the text does not change the sentences. *)
Lemma re_split_lstrip (t : str) :
  trimmed_nonempty (re_split false false (lstrip t))
  = trimmed_nonempty (re_split false false t).
Proof.
  induction t as [|c t IH]; [reflexivity|].
  simpl. destruct (isspace c) eqn:Hc.
  - rewrite IH. symmetry. apply trimmed_nonempty_push_space. exact Hc.
  - simpl. rewrite Hc. reflexivity.
Qed.

Lemma re_split_strip (t : str) :
  trimmed_nonempty (re_split false false (strip t))
  = trimmed_nonempty (re_split false false t).
Proof.
  unfold strip.
  rewrite <- (same_upto_trailing_space_trimmed _ _
                (re_split_rstrip (lstrip t) false false)).
  apply re_split_lstrip.
Qed.

Lemma sub_cjk_space_spaces (text : str) :
  forallb isspace text = true -> forallb isspace (sub_cjk_space text) = true.
Proof.
  induction text as [|c text IH]; [reflexivity|]. simpl. intro H.
  apply andb_prop in H. destruct H as [Hc H].
  rewrite forallb_app, (IH H), andb_true_r.
  destruct (cjk_terminator c); simpl; rewrite Hc; reflexivity.
Qed.

Lemma split_spec_spaces (text : str) :
  forallb isspace text = true -> Spec.split text = [].
Proof.
  intro H. unfold Spec.split.
  rewrite <- re_split_strip.
  rewrite (proj2 (strip_nil_iff _) (sub_cjk_space_spaces _ H)).
  reflexivity.
Qed.

Lemma split_into_sentences_refines (text : str) :
  split_into_sentences text = Spec.split text.
Proof.
  unfold split_into_sentences.
  destruct (strip text) as [|c r] eqn:E.
  - simpl. symmetry. apply split_spec_spaces, strip_nil_iff. exact E.
  - simpl. rewrite stripped_nonempty_trimmed. apply re_split_strip.
Qed.

End Splitter.

Section SplitterContent.

Import Spec.

Lemma lstrip_idem (s : str) : lstrip (lstrip s) = lstrip s.
Proof.
  induction s as [|c s IH]; [reflexivity|]. simpl.
  destruct (isspace c) eqn:Hc; [exact IH|]. simpl. rewrite Hc. reflexivity.
Qed.

Lemma strip_idem (s : str) : strip (strip s) = strip s.
Proof.
  rewrite (strip_lstrip_rstrip (strip s)).
  unfold strip at 1. unfold rstrip at 1 2.
  rewrite rev_involutive, lstrip_idem.
  fold (rstrip (lstrip s)). fold (strip s).
  rewrite strip_lstrip_rstrip. apply lstrip_idem.
Qed.

Lemma In_trimmed_nonempty (parts : list str) (s : str) :
  In s (trimmed_nonempty parts) -> s <> [] /\ strip s = s.
Proof.
  unfold trimmed_nonempty. rewrite filter_In, in_map_iff.
  intros [[p [<- _]] Hne]. split.
  - intro E. rewrite E in Hne. discriminate.
  - apply strip_idem.
Qed.

(** The characters of a string that are not whitespace. *)
Lemma content_lstrip (s : str) :
  filter (fun c => negb (isspace c)) (lstrip s)
  = filter (fun c => negb (isspace c)) s.
Proof.
  induction s as [|c s IH]; [reflexivity|]. simpl.
  destruct (isspace c) eqn:Hc; simpl; [exact IH|].
  rewrite Hc. reflexivity.
Qed.

Lemma filter_rev {A} (f : A -> bool) (l : list A) :
  filter f (rev l) = rev (filter f l).
Proof.
  induction l as [|a l IH]; [reflexivity|]. simpl.
  rewrite filter_app, IH. simpl.
  destruct (f a); simpl; [reflexivity | apply app_nil_r].
Qed.

Lemma content_strip (s : str) :
  filter (fun c => negb (isspace c)) (strip s)
  = filter (fun c => negb (isspace c)) s.
Proof.
  unfold strip, rstrip.
  rewrite filter_rev, content_lstrip, filter_rev, rev_involutive.
  apply content_lstrip.
Qed.

Lemma content_trimmed_nonempty (parts : list str) :
  filter (fun c => negb (isspace c)) (List.concat (trimmed_nonempty parts))
  = filter (fun c => negb (isspace c)) (List.concat parts).
Proof.
  induction parts as [|p parts IH]; [reflexivity|].
  assert (E : trimmed_nonempty (p :: parts)
              = (if is_empty (strip p) then [] else [strip p])
                ++ trimmed_nonempty parts).
  { unfold trimmed_nonempty. simpl. destruct (strip p); reflexivity. }
  rewrite E, concat_app, filter_app, IH.
  change (List.concat (p :: parts)) with (p ++ List.concat parts).
  rewrite filter_app. f_equal.
  rewrite <- (content_strip p).
  destruct (strip p); [reflexivity|].
  cbv [is_empty List.concat]. rewrite app_nil_r. reflexivity.
Qed.

Lemma concat_push (c : char) (parts : list str) :
  List.concat (push c parts) = c :: List.concat parts.
Proof. destruct parts; reflexivity. Qed.

Lemma content_re_split (s : str) :
  forall in_sep after_term,
    filter (fun c => negb (isspace c)) (List.concat (re_split in_sep after_term s))
    = filter (fun c => negb (isspace c)) s.
Proof.
  induction s as [|c s IH]; intros in_sep after_term; [reflexivity|].
  simpl. destruct (isspace c) eqn:Hc; simpl.
  - destruct in_sep; [apply IH|].
    destruct after_term; [apply IH|].
    rewrite concat_push. simpl. rewrite Hc. apply IH.
  - rewrite concat_push. simpl. rewrite Hc. simpl. rewrite IH. reflexivity.
Qed.

Lemma content_sub_cjk_space (s : str) :
  filter (fun c => negb (isspace c)) (sub_cjk_space s)
  = filter (fun c => negb (isspace c)) s.
Proof.
  induction s as [|c s IH]; [reflexivity|]. simpl.
  rewrite filter_app, IH.
  destruct (cjk_terminator c); simpl; destruct (isspace c); reflexivity.
Qed.

End SplitterContent.

(** C8. [split_into_sentences] inserts a space after each CJK terminator,
    splits on the whitespace runs that follow a terminator of
    [. ! ? 。 ！ ？] (the terminator stays with the fragment before the
    run), trims each fragment and drops the empty ones; an empty or
    whitespace-only text gives the empty list; every sentence returned is
    non-empty and trimmed, and only whitespace is lost; "Hello world. This
    is great!" splits into "Hello world." and "This is great!". *)
Theorem split_into_sentences_spec :
  (forall text : str, split_into_sentences text = Spec.split text) /\
  (forall text : str,
      forallb isspace text = true -> split_into_sentences text = []) /\
  (forall (text s : str),
      In s (split_into_sentences text) -> s <> [] /\ strip s = s) /\
  (forall text : str,
      filter (fun c => negb (isspace c)) (List.concat (split_into_sentences text))
      = filter (fun c => negb (isspace c)) text) /\
  split_into_sentences [] = [] /\
  split_into_sentences (lit "Hello world. This is great!")
  = [lit "Hello world."; lit "This is great!"] /\
  split_into_sentences [65; 12290; 66; 65281; 32; 67; 65311]%N
  = [[65; 12290]; [66; 65281]; [67; 65311]]%N.
Proof.
  split; [exact split_into_sentences_refines|].
  split; [|split; [|split; [|repeat split]]].
  - intros text H. rewrite split_into_sentences_refines.
    apply split_spec_spaces. exact H.
  - intros text s. rewrite split_into_sentences_refines.
    apply In_trimmed_nonempty.
  - intro text. rewrite split_into_sentences_refines. unfold Spec.split.
    rewrite content_trimmed_nonempty, content_re_split.
    apply content_sub_cjk_space.
Qed.

Lemma split_into_sentences_spec_witness :
  split_into_sentences [32; 9; 10; 12288]%N = [] /\
  (lit "This is great!" <> [] /\
   strip (lit "This is great!") = lit "This is great!").
Proof.
  split.
  - apply (proj1 (proj2 split_into_sentences_spec)). reflexivity.
  - apply (proj1 (proj2 (proj2 split_into_sentences_spec))
             (lit "Hello world. This is great!")).
    right. left. reflexivity.
Defined.

(* ------------------------------------------------------------------ *)
(** ** The snake and ladder game *)

Section SnakeLadderProps.

Import SnakeLadder.

(** Where a move to [pos] ends: [snakes.get(pos, ladders.get(pos, pos))]
    with the tables of the new game. *)
Lemma landing_square (pos : Z) :
  (pos <= 100)%Z ->
  let l := get_default (snakes new_game) pos
             (get_default (ladders new_game) pos pos) in
  (l <= 100)%Z /\ is_jump_square l = false /\ ((0 <= pos)%Z -> (0 <= l)%Z).
Proof.
  intro Hle. cbv zeta.
  unfold is_jump_square, dict_mem, get_default, new_game, snakes, ladders,
    dict_get.
  repeat match goal with
         | |- context [(pos =? ?k)%Z] => destruct (Z.eqb_spec pos k)
         end;
    subst; cbn; repeat split; try reflexivity; try lia.
Qed.

(** [well_formed] as a proposition. *)
Lemma well_formed_iff (g : Game) :
  well_formed g = true <->
  exists p0 p1 : Z,
    positions g = [p0; p1] /\
    (p0 <= 100)%Z /\ (p1 <= 100)%Z /\
    is_jump_square p0 = false /\ is_jump_square p1 = false /\
    (current_player g = 0%Z \/ current_player g = 1%Z) /\
    match winner g with
    | None => p0 <> 100%Z /\ p1 <> 100%Z
    | Some w =>
        (w = 0%Z /\ p0 = 100%Z /\ p1 <> 100%Z /\ current_player g = 1%Z) \/
        (w = 1%Z /\ p1 = 100%Z /\ p0 <> 100%Z /\ current_player g = 0%Z)
    end.
Proof.
  unfold well_formed.
  destruct (positions g) as [|p0 [|p1 [|x l]]].
  1, 2, 4: split; [discriminate | intros [? [? [E _]]]; discriminate E].
  rewrite !andb_true_iff, !negb_true_iff, orb_true_iff, !Z.leb_le,
    !Z.eqb_eq.
  split.
  - intros [[[[[H0 H1] J0] J1] Hcp] Hw].
    exists p0, p1. repeat (split; [assumption || reflexivity|]).
    destruct (winner g) as [w|].
    + rewrite orb_true_iff, !andb_true_iff, !negb_true_iff, !Z.eqb_eq,
        !Z.eqb_neq in Hw. tauto.
    + rewrite andb_true_iff, !negb_true_iff, !Z.eqb_neq in Hw. exact Hw.
  - intros [q0 [q1 [E [H0 [H1 [J0 [J1 [Hcp Hw]]]]]]]].
    inversion E; subst q0 q1; clear E.
    split; [repeat split; assumption|].
    destruct (winner g) as [w|].
    + rewrite orb_true_iff, !andb_true_iff, !negb_true_iff, !Z.eqb_eq,
        !Z.eqb_neq. tauto.
    + rewrite andb_true_iff, !negb_true_iff, !Z.eqb_neq. exact Hw.
Qed.

Lemma py_index_two (a b : Z) :
  py_index [a; b] 0 = Returned a /\ py_index [a; b] 1 = Returned b /\
  (forall c, py_setitem [a; b] 0 c = Returned [c; b]) /\
  (forall c, py_setitem [a; b] 1 c = Returned [a; c]).
Proof. repeat split. Qed.

(** One call of [move] from a well-formed game: it returns, and the game
    it leaves is well formed. *)
Lemma well_formed_move (g : Game) (steps : Z) :
  snakes g = snakes new_game -> ladders g = ladders new_game ->
  well_formed g = true ->
  exists g' : Game,
    move g steps = Returned g' /\
    snakes g' = snakes new_game /\ ladders g' = ladders new_game /\
    well_formed g' = true /\
    (winner g <> None -> g' = g) /\
    (winner g = None ->
     current_player g' = (1 - current_player g)%Z /\
     position_of g' (1 - current_player g) =
     position_of g (1 - current_player g) /\
     position_of g' (current_player g) =
     (let pos := (position_of g (current_player g) + steps)%Z in
      if (pos >? 100)%Z then position_of g (current_player g)
      else get_default (snakes new_game) pos
             (get_default (ladders new_game) pos pos)) /\
     ((0 <= steps)%Z -> (0 <= position_of g (current_player g))%Z ->
      (0 <= position_of g' (current_player g))%Z)).
Proof.
  destruct g as [sn ld pos cp w]. cbn [snakes ladders winner].
  intros Hsn Hld Hwf.
  unfold move. cbn [snakes ladders winner positions current_player].
  destruct w as [w|].
  { eexists. split; [reflexivity|]. split; [exact Hsn|].
    split; [exact Hld|]. split; [exact Hwf|].
    split; [intros _; reflexivity | discriminate]. }
  apply well_formed_iff in Hwf.
  cbn [snakes ladders winner positions current_player] in Hwf.
  destruct Hwf as [p0 [p1 [-> [H0 [H1 [J0 [J1 [Hcp [N0 N1]]]]]]]]].
  destruct (py_index_two p0 p1) as [I0 [I1 [S0 S1]]].
  subst sn ld.
  destruct Hcp as [-> | ->];
    unfold position_of;
    cbn [snakes ladders winner positions current_player];
    change (1 - 0)%Z with 1%Z; change (1 - 1)%Z with 0%Z;
    rewrite ?I0, ?I1; cbn [obind];
    match goal with
    | |- context [(?a >? 100)%Z] =>
        destruct (Z.gtb_spec a 100) as [Hgt | Hle']
    end;
    rewrite ?I0, ?I1; cbn [obind]; rewrite ?S0, ?S1; cbn [obind];
    eexists; (split; [reflexivity|]);
    cbn [positions current_player winner snakes ladders];
    (split; [reflexivity|]); (split; [reflexivity|]).
  all: try (destruct (landing_square Hle') as [Hl [Hj Hnn]]; cbv zeta in *).
  all: split; [apply well_formed_iff;
               cbn [positions current_player winner snakes ladders] |].
  all: try (split; [intro C; contradiction C; reflexivity|]; intros _;
            repeat split; intros; try apply Hnn; lia).
  all: eexists _, _; (split; [reflexivity|]);
       repeat (split; [assumption || auto|]).
  all: match goal with
       | |- context [(?q =? 100)%Z] => destruct (Z.eqb_spec q 100)
       end; try contradiction; auto 10.
Qed.

(** Any sequence of moves from a well-formed game returns a well-formed
    game; with steps that are not negative, positions stay at 0 or above. *)
Lemma well_formed_play (steps : list Z) :
  forall g : Game,
    snakes g = snakes new_game -> ladders g = ladders new_game ->
    well_formed g = true ->
    exists g' : Game,
      play g steps = Returned g' /\
      snakes g' = snakes new_game /\ ladders g' = ladders new_game /\
      well_formed g' = true /\
      (winner g' = None ->
       winner g = None /\
       current_player g' =
       ((current_player g + Z.of_nat (List.length steps)) mod 2)%Z) /\
      (forallb (Z.leb 0) steps = true ->
       (0 <= position_of g 0)%Z -> (0 <= position_of g 1)%Z ->
       (0 <= position_of g' 0)%Z /\ (0 <= position_of g' 1)%Z).
Proof.
  induction steps as [|s rest IH]; intros g Hsn Hld Hwf.
  - exists g. simpl. repeat split; auto.
    apply well_formed_iff in Hwf.
    destruct Hwf as [p0 [p1 [_ [_ [_ [_ [_ [[-> | ->] _]]]]]]]]; reflexivity.
  - destruct (@well_formed_move g s Hsn Hld Hwf)
      as [g1 [Hmove [Hsn1 [Hld1 [Hwf1 [Hfinal Hstep]]]]]].
    destruct (IH g1 Hsn1 Hld1 Hwf1)
      as [g' [Hplay [Hsn' [Hld' [Hwf' [Hturn Hpos]]]]]].
    exists g'. simpl play. rewrite Hmove. simpl obind.
    split; [exact Hplay|]. split; [exact Hsn'|]. split; [exact Hld'|].
    split; [exact Hwf'|].
    pose proof (proj1 (well_formed_iff g) Hwf)
      as [p0 [p1 [_ [_ [_ [_ [_ [Hcp _]]]]]]]].
    split.
    + intro Hnone. destruct (Hturn Hnone) as [Hnone1 Hcp'].
      destruct (winner g) as [w|] eqn:Ew.
      { rewrite (Hfinal ltac:(discriminate)) in Hnone1.
        rewrite Ew in Hnone1. discriminate. }
      split; [reflexivity|].
      destruct (Hstep eq_refl) as [Hcp1 _].
      rewrite Hcp', Hcp1. simpl List.length. rewrite Nat2Z.inj_succ.
      destruct Hcp as [-> | ->].
      * f_equal. lia.
      * replace (1 + Z.succ (Z.of_nat (List.length rest)))%Z
          with (1 - 1 + Z.of_nat (List.length rest) + 1 * 2)%Z by lia.
        symmetry. apply Z_mod_plus_full.
    + intros Hnn G0 G1. simpl in Hnn. apply andb_prop in Hnn.
      destruct Hnn as [Hs Hrest]. apply Z.leb_le in Hs.
      apply Hpos; [exact Hrest | |].
      * destruct (winner g) as [w|] eqn:Ew.
        { rewrite (Hfinal ltac:(discriminate)). exact G0. }
        destruct (Hstep eq_refl) as [_ [Hother [_ Hmover]]].
        destruct Hcp as [E | E]; rewrite E in *.
        -- apply Hmover; assumption.
        -- change (1 - 1)%Z with 0%Z in Hother. rewrite Hother. exact G0.
      * destruct (winner g) as [w|] eqn:Ew.
        { rewrite (Hfinal ltac:(discriminate)). exact G1. }
        destruct (Hstep eq_refl) as [_ [Hother [_ Hmover]]].
        destruct Hcp as [E | E]; rewrite E in *.
        -- change (1 - 0)%Z with 1%Z in Hother. rewrite Hother. exact G1.
        -- apply Hmover; assumption.
Qed.

(** [move] never raises: every sequence of calls of [move] on a new game,
    with any integer steps, returns a game that still has the two tables
    of the new game, two positions and a current player 0 or 1. *)
Theorem play_keeps_game_shape :
  forall steps : list Z,
    exists g : Game,
      play new_game steps = Returned g /\
      snakes g = snakes new_game /\ ladders g = ladders new_game /\
      List.length (positions g) = 2 /\
      (current_player g = 0%Z \/ current_player g = 1%Z).
Proof.
  intro steps.
  destruct (@well_formed_play steps new_game eq_refl eq_refl eq_refl)
    as [g [Hplay [Hsn [Hld [Hwf _]]]]].
  exists g. repeat (split; [assumption|]).
  apply well_formed_iff in Hwf.
  destruct Hwf as [p0 [p1 [E [_ [_ [_ [_ [Hcp _]]]]]]]].
  rewrite E. split; [reflexivity | exact Hcp].
Qed.

(** Whatever the steps, no player is ever beyond square 100 or left
    standing on the head of a snake or the foot of a ladder. *)
Theorem play_positions_bounded_off_jumps :
  forall steps : list Z,
    exists g : Game,
      play new_game steps = Returned g /\
      Forall (fun p => (p <= 100)%Z /\ is_jump_square p = false)
             (positions g).
Proof.
  intro steps.
  destruct (@well_formed_play steps new_game eq_refl eq_refl eq_refl)
    as [g [Hplay [_ [_ [Hwf _]]]]].
  exists g. split; [exact Hplay|].
  apply well_formed_iff in Hwf.
  destruct Hwf as [p0 [p1 [E [H0 [H1 [J0 [J1 _]]]]]]].
  rewrite E. repeat constructor; assumption.
Qed.

(** A winner is recorded exactly when a player stands on square 100: that
    player is the winner, the other player is not on 100, and the winner
    is not the current player. *)
Theorem play_winner_iff_on_100 :
  forall steps : list Z,
    exists g : Game,
      play new_game steps = Returned g /\
      (forall w : Z,
          get_winner g = Some w <->
          ((w = 0%Z \/ w = 1%Z) /\ position_of g w = 100%Z)) /\
      (forall w : Z,
          get_winner g = Some w ->
          current_player g = (1 - w)%Z /\
          position_of g (1 - w) <> 100%Z).
Proof.
  intro steps.
  destruct (@well_formed_play steps new_game eq_refl eq_refl eq_refl)
    as [g [Hplay [_ [_ [Hwf _]]]]].
  exists g. split; [exact Hplay|].
  apply well_formed_iff in Hwf.
  destruct Hwf as [p0 [p1 [E [_ [_ [_ [_ [_ Hw]]]]]]]].
  unfold get_winner, position_of. rewrite E.
  destruct (winner g) as [w0|]; split.
  - intro w. split.
    + intro Hsome. inversion Hsome; subst w0.
      destruct Hw as [[-> [-> _]] | [-> [-> _]]]; auto.
    + intros [[-> | ->] Hp];
        destruct Hw as [[-> [? [? _]]] | [-> [? [? _]]]];
        try reflexivity; contradiction.
  - intros w Hsome. inversion Hsome; subst w0.
    destruct Hw as [[-> [_ [? ->]]] | [-> [_ [? ->]]]]; simpl; auto.
  - intro w. split; [discriminate|].
    intros [[-> | ->] Hp]; destruct Hw; contradiction.
  - discriminate.
Qed.

(** Square 0 is the lowest square: with steps that are never negative, as
    the dice gives them, both positions stay between 0 and 100. *)
Theorem play_positions_in_range :
  forall steps : list Z,
    forallb (Z.leb 0) steps = true ->
    exists g : Game,
      play new_game steps = Returned g /\
      Forall (fun p => (0 <= p <= 100)%Z) (get_positions g).
Proof.
  intros steps Hnn.
  destruct (@well_formed_play steps new_game eq_refl eq_refl eq_refl)
    as [g [Hplay [_ [_ [Hwf [_ Hpos]]]]]].
  exists g. split; [exact Hplay|].
  destruct (Hpos Hnn) as [G0 G1]; [cbv; discriminate | cbv; discriminate |].
  apply well_formed_iff in Hwf.
  destruct Hwf as [p0 [p1 [E [H0 [H1 _]]]]].
  unfold get_positions, position_of in *. rewrite E in *.
  repeat constructor; assumption.
Qed.

Lemma play_positions_in_range_witness :
  exists g : Game,
    play new_game [4; 6; 5; 1]%Z = Returned g /\
    Forall (fun p => (0 <= p <= 100)%Z) (get_positions g).
Proof. apply play_positions_in_range. reflexivity. Defined.

(** While nobody has won, the players alternate: after [n] calls of
    [move] with no winner, the current player is [n mod 2]; a call that
    overshoots 100 also passes the turn. *)
Theorem play_turns_alternate :
  forall steps : list Z,
    exists g : Game,
      play new_game steps = Returned g /\
      (get_winner g = None ->
       current_player g = (Z.of_nat (List.length steps) mod 2)%Z).
Proof.
  intro steps.
  destruct (@well_formed_play steps new_game eq_refl eq_refl eq_refl)
    as [g [Hplay [_ [_ [_ [Hturn _]]]]]].
  exists g. split; [exact Hplay|].
  intro Hnone. destruct (Hturn Hnone) as [_ Hcp]. exact Hcp.
Qed.

Lemma play_turns_alternate_witness :
  exists g : Game,
    play new_game [4; 6; 5]%Z = Returned g /\
    (get_winner g = None -> current_player g = 1%Z).
Proof. apply (play_turns_alternate [4; 6; 5]%Z). Defined.

(** Once a winner is recorded the game is over: every further call of
    [move] leaves the game exactly as it is. *)
Theorem play_after_win_is_noop :
  forall (g : Game) (steps : list Z),
    get_winner g <> None -> play g steps = Returned g.
Proof.
  intros g steps Hw. induction steps as [|s rest IH]; [reflexivity|].
  simpl. unfold move. unfold get_winner in Hw.
  destruct (winner g); [exact IH | contradiction].
Qed.

Lemma play_after_win_is_noop_witness :
  play {| snakes := snakes new_game; ladders := ladders new_game;
          positions := [100; 38]%Z; current_player := 1%Z;
          winner := Some 0%Z |} [3; 6]%Z
  = Returned {| snakes := snakes new_game; ladders := ladders new_game;
                positions := [100; 38]%Z; current_player := 1%Z;
                winner := Some 0%Z |}.
Proof. apply play_after_win_is_noop. discriminate. Defined.

(** A call of [move] in a game without winner moves only the current
    player: the other position is unchanged, the turn passes, and the
    mover stays put when the steps would take it beyond 100 and otherwise
    lands where the snakes and ladders send it. *)
Theorem move_changes_only_the_mover :
  forall (g : Game) (steps : Z),
    snakes g = snakes new_game -> ladders g = ladders new_game ->
    well_formed g = true -> get_winner g = None ->
    exists g' : Game,
      move g steps = Returned g' /\
      current_player g' = (1 - current_player g)%Z /\
      position_of g' (1 - current_player g)
      = position_of g (1 - current_player g) /\
      position_of g' (current_player g)
      = (let pos := (position_of g (current_player g) + steps)%Z in
         if (pos >? 100)%Z then position_of g (current_player g)
         else get_default (snakes g) pos (get_default (ladders g) pos pos)).
Proof.
  intros g steps Hsn Hld Hwf Hnone.
  destruct (@well_formed_move g steps Hsn Hld Hwf)
    as [g' [Hmove [_ [_ [_ [_ Hstep]]]]]].
  destruct (Hstep Hnone) as [Hcp [Hother [Hmover _]]].
  exists g'. rewrite Hsn, Hld. auto.
Qed.

Lemma move_changes_only_the_mover_witness :
  exists g' : Game,
    move new_game 4 = Returned g' /\
    current_player g' = 1%Z /\
    position_of g' 1 = 0%Z /\
    position_of g' 0 = 14%Z.
Proof.
  apply (@move_changes_only_the_mover new_game 4%Z);
    reflexivity.
Defined.

End SnakeLadderProps.

(* ------------------------------------------------------------------ *)
(** ** Language detection and translation *)

(** [detect_language] never raises: it calls the detector once and returns
    its code, or "en" when the detector raises. *)
Theorem detect_language_fails_open :
  forall (be : Backend) (text : str),
    run (detect_language be text)
    = (Returned (Props.detected be text), [CallDetect text]) /\
    (forall e, detect be text = Raised e ->
               fst (run (detect_language be text)) = Returned (lit "en")).
Proof.
  intros be text. unfold detect_language, run, try_except, call, ret,
    Props.detected.
  split.
  - destruct (detect be text); reflexivity.
  - intros e ->. reflexivity.
Qed.

Lemma detect_language_fails_open_witness :
  fst (run (detect_language Fixtures.failing_backend (lit "Bonjour")))
  = Returned (lit "en").
Proof.
  apply (proj2 (detect_language_fails_open Fixtures.failing_backend
                  (lit "Bonjour")) (CollaboratorError 1)).
  reflexivity.
Defined.

(** The translation tokenizer and model are used exactly when the text has
    a character that is not whitespace and the language code does not start
    with "en"; the first two calls then set the source language to the
    mapped code and tokenize the text with truncation at 1024 tokens. *)
Theorem translate_uses_model_iff :
  forall (unicode_lower : str -> str) (be : Backend) (text src_lang : str),
    (snd (run (translate_to_english unicode_lower be text src_lang)) = [] <->
     (is_empty (strip text) || startswith src_lang (lit "en")) = true) /\
    ((is_empty (strip text) || startswith src_lang (lit "en")) = false ->
     exists rest : Trace,
       snd (run (translate_to_english unicode_lower be text src_lang))
       = CallSetSrcLang (map_langdetect_to_m2m unicode_lower (Some src_lang))
         :: CallTokenize text true 1024 :: rest).
Proof.
  intros ul be text src.
  assert (Hcalls :
    (is_empty (strip text) || startswith src (lit "en")) = false ->
    exists rest : Trace,
      snd (run (translate_to_english ul be text src))
      = CallSetSrcLang (map_langdetect_to_m2m ul (Some src))
        :: CallTokenize text true 1024 :: rest).
  { intro H. apply orb_false_elim in H. destruct H as [Hb He].
    unfold translate_to_english. rewrite Hb, He.
    unfold run, bind, call, ret, lift. simpl app.
    destruct (tokenize be _ text 1024) as [enc|]; [|eexists; reflexivity].
    simpl app.
    destruct (get_lang_id be (lit "en")) as [id|]; [|eexists; reflexivity].
    simpl app.
    destruct (generate be enc id 1024) as [gen|]; [|eexists; reflexivity].
    simpl app. destruct (batch_decode be gen) as [[|first others]|];
      eexists; reflexivity. }
  split; [|exact Hcalls].
  split.
  - intro Hnil.
    destruct (is_empty (strip text) || startswith src (lit "en")) eqn:E;
      [reflexivity|].
    destruct (Hcalls eq_refl) as [rest Hrest].
    rewrite Hrest in Hnil. discriminate.
  - intro H. unfold translate_to_english.
    destruct (is_empty (strip text)); [reflexivity|].
    simpl in H. rewrite H. reflexivity.
Qed.

Lemma translate_uses_model_iff_witness :
  exists rest : Trace,
    snd (run (translate_to_english Fixtures.lower_ascii_only
                Examples.french_backend (lit "Le ciel est bleu.")
                (lit "fr")))
    = CallSetSrcLang (lit "fr")
      :: CallTokenize (lit "Le ciel est bleu.") true 1024 :: rest.
Proof.
  apply (proj2 (translate_uses_model_iff Fixtures.lower_ascii_only
                  Examples.french_backend (lit "Le ciel est bleu.")
                  (lit "fr"))).
  reflexivity.
Defined.

(** When every step of the translation returns, [translate_to_english]
    returns the first decoded text after five calls in the order set source
    language, tokenize, get the id of "en", generate with at most 1024 new
    tokens, decode without special tokens. *)
Theorem translate_returns_first_decoded :
  forall (unicode_lower : str -> str) (be : Backend) (text src_lang : str)
         (encoded generated : Tensor) (en_id : Z) (first : str)
         (others : list str),
    is_empty (strip text) = false ->
    startswith src_lang (lit "en") = false ->
    tokenize be (map_langdetect_to_m2m unicode_lower (Some src_lang))
      text 1024 = Returned encoded ->
    get_lang_id be (lit "en") = Returned en_id ->
    generate be encoded en_id 1024 = Returned generated ->
    batch_decode be generated = Returned (first :: others) ->
    run (translate_to_english unicode_lower be text src_lang)
    = (Returned first,
       [CallSetSrcLang (map_langdetect_to_m2m unicode_lower (Some src_lang));
        CallTokenize text true 1024;
        CallGetLangId (lit "en");
        CallGenerate encoded en_id 1024;
        CallBatchDecode generated true]).
Proof.
  intros ul be text src encoded generated en_id first others
         Hb He Htok Hid Hgen Hdec.
  unfold translate_to_english. rewrite Hb, He.
  unfold run, bind, call, ret. simpl app.
  rewrite Htok. simpl app. rewrite Hid. simpl app. rewrite Hgen.
  simpl app. rewrite Hdec. reflexivity.
Qed.

Lemma translate_returns_first_decoded_witness :
  run (translate_to_english Fixtures.lower_ascii_only
         Examples.french_backend (lit "Le ciel est bleu. Vraiment!")
         (lit "fr"))
  = (Returned (lit "The sky is blue. Really!"),
     [CallSetSrcLang (lit "fr");
      CallTokenize (lit "Le ciel est bleu. Vraiment!") true 1024;
      CallGetLangId (lit "en");
      CallGenerate [[128028; 17; 2]%Z] 128022 1024;
      CallBatchDecode [[2; 128022; 94; 2]%Z] true]).
Proof.
  apply (@translate_returns_first_decoded Fixtures.lower_ascii_only
           Examples.french_backend (lit "Le ciel est bleu. Vraiment!")
           (lit "fr") [[128028; 17; 2]%Z] [[2; 128022; 94; 2]%Z] 128022%Z
           (lit "The sky is blue. Really!") []);
    reflexivity.
Defined.

(** Translation fails fast: when the tokenizer raises, the exception
    reaches the caller and the model is never asked to generate; when the
    generation raises, nothing is decoded; and an empty list of decoded
    texts raises [IndexError]. *)
Theorem translate_fails_fast :
  forall (unicode_lower : str -> str) (be : Backend) (text src_lang : str),
    is_empty (strip text) = false ->
    startswith src_lang (lit "en") = false ->
    let m2m_src := map_langdetect_to_m2m unicode_lower (Some src_lang) in
    (forall e, tokenize be m2m_src text 1024 = Raised e ->
               run (translate_to_english unicode_lower be text src_lang)
               = (Raised e,
                  [CallSetSrcLang m2m_src; CallTokenize text true 1024])) /\
    (forall encoded en_id e,
        tokenize be m2m_src text 1024 = Returned encoded ->
        get_lang_id be (lit "en") = Returned en_id ->
        generate be encoded en_id 1024 = Raised e ->
        run (translate_to_english unicode_lower be text src_lang)
        = (Raised e,
           [CallSetSrcLang m2m_src; CallTokenize text true 1024;
            CallGetLangId (lit "en"); CallGenerate encoded en_id 1024])) /\
    (forall encoded en_id generated,
        tokenize be m2m_src text 1024 = Returned encoded ->
        get_lang_id be (lit "en") = Returned en_id ->
        generate be encoded en_id 1024 = Returned generated ->
        batch_decode be generated = Returned [] ->
        fst (run (translate_to_english unicode_lower be text src_lang))
        = Raised IndexError).
Proof.
  intros ul be text src Hb He m2m_src. subst m2m_src.
  unfold translate_to_english. rewrite Hb, He.
  unfold run, bind, call, ret, lift. simpl app.
  split; [|split].
  - intros e ->. reflexivity.
  - intros encoded en_id e -> . simpl app. intros ->. simpl app.
    intros ->. reflexivity.
  - intros encoded en_id generated ->. simpl app. intros ->. simpl app.
    intros ->. simpl app. intros ->. reflexivity.
Qed.

Lemma translate_fails_fast_witness :
  run (translate_to_english Fixtures.lower_ascii_only
         Fixtures.failing_backend (lit "Hola") (lit "es"))
  = (Raised (CollaboratorError 2),
     [CallSetSrcLang (lit "es"); CallTokenize (lit "Hola") true 1024]).
Proof.
  apply (proj1 (@translate_fails_fast Fixtures.lower_ascii_only
                  Fixtures.failing_backend (lit "Hola") (lit "es")
                  eq_refl eq_refl) (CollaboratorError 2)).
  reflexivity.
Defined.

(* ------------------------------------------------------------------ *)
(** ** Reading the score of "true" *)

Lemma str_eqb_refl (a : str) : str_eqb a a = true.
Proof. apply str_eqb_eq. reflexivity. Qed.

(** Lookup after a write: the value written for the same key, the old
    lookup for another key. *)
Lemma get_set {V} (d : PyDict.dict V) (k k' : str) (v : V) :
  PyDict.get (PyDict.set d k v) k'
  = if str_eqb k k' then Some v else PyDict.get d k'.
Proof.
  destruct (str_eqb k k') eqn:E.
  - apply str_eqb_eq in E. subst k'.
    induction d as [|[k0 v0] d IH]; simpl.
    + rewrite str_eqb_refl. reflexivity.
    + destruct (str_eqb k k0) eqn:E0; simpl; rewrite E0; [reflexivity|].
      exact IH.
  - apply get_set_other. intro Heq. subst k'.
    rewrite str_eqb_refl in E. discriminate.
Qed.

Lemma get_fold_set_last {V} (key : str -> str) (k : str)
    (pairs : list (str * V)) :
  forall d,
    PyDict.get (fold_left (fun d p => PyDict.set d (key (fst p)) (snd p))
                          pairs d) k
    = fold_left (fun acc p => if str_eqb (key (fst p)) k
                              then Some (snd p) else acc)
                pairs (PyDict.get d k).
Proof.
  induction pairs as [|p pairs IH]; intro d; simpl; [reflexivity|].
  rewrite IH, get_set. reflexivity.
Qed.

(** The score read from a response item is the score zipped with the last
    label that reads "true" once lower-cased, and 0.0 when there is none;
    so it does not depend on the position of the label: with the labels
    "true" and "false" in either order, or "TRUE" in capitals, it is the
    score aligned with "true". *)
Theorem true_score_is_last_true_label :
  forall (unicode_lower : str -> str),
    (forall res : ZeroShotResult,
        true_score_of unicode_lower res
        = match Props.last_true_score unicode_lower res with
          | Some s => s
          | None => f0_0
          end) /\
    (forall a b : float,
        true_score_of unicode_lower
          {| labels := [lit "true"; lit "false"]; scores := [a; b] |} = a /\
        true_score_of unicode_lower
          {| labels := [lit "false"; lit "true"]; scores := [a; b] |} = b /\
        true_score_of unicode_lower
          {| labels := [lit "FALSE"; lit "TRUE"]; scores := [a; b] |} = b /\
        true_score_of unicode_lower
          {| labels := [lit "true"; lit "True"]; scores := [a; b] |} = b).
Proof.
  intro ul. split.
  - intro res. unfold true_score_of, PyDict.get_default,
      PyDict.comprehension, Props.last_true_score.
    rewrite get_fold_set_last. reflexivity.
  - intros a b. repeat split.
Qed.

(* ------------------------------------------------------------------ *)
(** ** The highlighted markup *)

Lemma highlighted_span_run (s : SentenceScore) (t : Trace) :
  snd (highlighted_span s t) = t /\
  ((exists span, fst (highlighted_span s t) = Returned span) <->
   Props.is_number (mul (true_score s) f100) = true).
Proof.
  unfold highlighted_span, bind, lift, ret.
  destruct (mul (true_score s) f100) as [z|i| |sg m e]; simpl.
  - split; [reflexivity|]. split; [reflexivity | eexists; reflexivity].
  - split; [reflexivity|]. split; [intros [? H]; discriminate H|discriminate].
  - split; [reflexivity|]. split; [intros [? H]; discriminate H|discriminate].
  - split; [reflexivity|]. split; [reflexivity | eexists; reflexivity].
Qed.

Lemma mapM_highlighted_span (l : list SentenceScore) (t : Trace) :
  snd (mapM highlighted_span l t) = t /\
  ((exists spans, fst (mapM highlighted_span l t) = Returned spans) <->
   forallb (fun s => Props.is_number (mul (true_score s) f100)) l = true).
Proof.
  induction l as [|s l IH]; simpl.
  - split; [reflexivity|]. split; [reflexivity | eexists; reflexivity].
  - destruct (highlighted_span_run s t) as [Ht Hs].
    unfold bind, ret.
    destruct (highlighted_span s t) as [[span|e] t1] eqn:E; simpl in Ht;
      subst t1.
    + assert (Hn : Props.is_number (mul (true_score s) f100) = true).
      { apply Hs. eexists. reflexivity. }
      rewrite Hn. simpl andb.
      destruct IH as [IHt IHs].
      destruct (mapM highlighted_span l t) as [[spans|e] t1] eqn:El;
        simpl in IHt; subst t1; simpl.
      * split; [reflexivity|].
        split; [intros _; apply IHs; eexists; reflexivity
               | eexists; reflexivity].
      * split; [reflexivity|]. split.
        -- intros [? H]. discriminate H.
        -- intro H. apply IHs in H. destruct H as [? H]. discriminate H.
    + simpl. split; [reflexivity|]. split.
      * intros [? H]. discriminate H.
      * intro H. apply andb_prop in H. destruct H as [H _].
        apply Hs in H. destruct H as [? H]. discriminate H.
Qed.

(** [build_highlighted_html] calls no collaborator, and it returns the
    markup exactly when every score times 100 is a number; a score that is
    NaN or infinite anywhere in the list makes it raise. *)
Theorem build_highlighted_html_returns_iff :
  forall (sentence_scores : list SentenceScore),
    (forall t : Trace, snd (build_highlighted_html sentence_scores t) = t) /\
    ((exists html, run (build_highlighted_html sentence_scores)
                   = (Returned html, [])) <->
     forallb (fun s => Props.is_number (mul (true_score s) f100))
             sentence_scores = true) /\
    (forall s : SentenceScore,
        In s sentence_scores ->
        Props.is_number (true_score s) = false ->
        forall html, fst (run (build_highlighted_html sentence_scores))
                     <> Returned html).
Proof.
  intro l.
  assert (Hrun : forall t,
             snd (build_highlighted_html l t) = t /\
             ((exists html, fst (build_highlighted_html l t) = Returned html)
              <-> forallb (fun s => Props.is_number (mul (true_score s) f100))
                          l = true)).
  { intro t. destruct (mapM_highlighted_span l t) as [Ht Hs].
    unfold build_highlighted_html, bind, ret.
    destruct (mapM highlighted_span l t) as [[spans|e] t1]; simpl in *;
      subst t1.
    - split; [reflexivity|].
      split; [intros _; apply Hs; eexists; reflexivity
             | eexists; reflexivity].
    - split; [reflexivity|]. split.
      + intros [? H]. discriminate H.
      + intro H. apply Hs in H. destruct H as [? H]. discriminate H. }
  split; [intro t; apply Hrun|]. split.
  - destruct (Hrun []) as [Ht Hs]. unfold run. split.
    + intros [html H]. apply Hs. exists html. rewrite H. reflexivity.
    + intro H. apply Hs in H. destruct H as [html H]. exists html.
      destruct (build_highlighted_html l []) as [r t1]; simpl in *.
      subst. reflexivity.
  - intros s Hin Hnan html Hret.
    destruct (Hrun []) as [_ Hs].
    assert (Hall : forallb (fun s => Props.is_number (mul (true_score s) f100))
                           l = true).
    { apply Hs. exists html. exact Hret. }
    rewrite forallb_forall in Hall. specialize (Hall s Hin).
    destruct (true_score s) as [z|i| |sg m e]; try discriminate Hnan;
      try destruct i; discriminate Hall.
Qed.

Lemma build_highlighted_html_returns_iff_witness :
  exists html : str,
    run (build_highlighted_html
           [ {| sentence := lit "One."; true_score := f0_7 |};
             {| sentence := lit "Two."; true_score := f0_5 |} ])
    = (Returned html, []).
Proof.
  apply (proj2 (proj1 (proj2 (build_highlighted_html_returns_iff
                                [ {| sentence := lit "One.";
                                     true_score := f0_7 |};
                                  {| sentence := lit "Two.";
                                     true_score := f0_5 |} ])))).
  reflexivity.
Defined.

(* ------------------------------------------------------------------ *)
(** ** More on HTML escaping *)

Lemma escape_html_as_flat_map (text : str) :
  _escape_html text = Spec.escape text.
Proof.
  unfold _escape_html, Spec.escape.
  unfold replace at 3. unfold replace at 2. unfold replace at 1.
  rewrite !flat_map_flat_map.
  apply flat_map_ext. intro c.
  pose proof (escape_one_char c) as H. unfold replace in H.
  rewrite <- H. rewrite flat_map_flat_map. reflexivity.
Qed.

Lemma escape_char_cases (c : char) :
  (c = 38%N /\ Spec.escape_char c = [38; 97; 109; 112; 59]%N) \/
  (c = 60%N /\ Spec.escape_char c = [38; 108; 116; 59]%N) \/
  (c = 62%N /\ Spec.escape_char c = [38; 103; 116; 59]%N) \/
  (c <> 38%N /\ c <> 60%N /\ c <> 62%N /\ Spec.escape_char c = [c]).
Proof.
  unfold Spec.escape_char.
  destruct (N.eqb_spec c 38) as [->|H38]; [left; split; reflexivity|].
  destruct (N.eqb_spec c 60) as [->|H60];
    [right; left; split; reflexivity|].
  destruct (N.eqb_spec c 62) as [->|H62];
    [right; right; left; split; reflexivity|].
  right; right; right. auto.
Qed.

(** The escaped text has no "<" and no ">" character, whatever the input;
    and a text without "&", "<" and ">" is returned as it is. *)
Theorem escape_html_no_angle_brackets :
  forall text : str,
    ~ In 60%N (_escape_html text) /\
    ~ In 62%N (_escape_html text) /\
    (forallb (fun c => negb ((c =? 38) || (c =? 60) || (c =? 62))%N) text
     = true -> _escape_html text = text).
Proof.
  intro text. rewrite escape_html_as_flat_map. unfold Spec.escape.
  assert (Hno : forall x : char,
             (x = 60%N \/ x = 62%N) ->
             ~ In x (flat_map Spec.escape_char text)).
  { intros x Hx Hin. apply in_flat_map in Hin.
    destruct Hin as [c [_ Hin]].
    destruct (escape_char_cases c)
      as [[-> E] | [[-> E] | [[-> E] | [H38 [H60 [H62 E]]]]]];
      rewrite E in Hin; simpl in Hin;
      destruct Hx; subst x; intuition (try discriminate; congruence). }
  split; [apply Hno; left; reflexivity|].
  split; [apply Hno; right; reflexivity|].
  clear Hno.
  induction text as [|c text IH]; [reflexivity|]. simpl. intro H.
  apply andb_prop in H. destruct H as [Hc Hrest].
  rewrite IH by exact Hrest.
  apply negb_true_iff in Hc. apply orb_false_elim in Hc.
  destruct Hc as [Hc H62]. apply orb_false_elim in Hc.
  destruct Hc as [H38 H60].
  unfold Spec.escape_char. rewrite H38, H60, H62. reflexivity.
Qed.

Lemma escape_html_no_angle_brackets_witness :
  _escape_html (lit "plain text") = lit "plain text".
Proof.
  apply (proj2 (proj2 (escape_html_no_angle_brackets (lit "plain text")))).
  reflexivity.
Defined.

(** Escaping loses nothing: two texts with the same escaped form are the
    same text. *)
Theorem escape_html_injective :
  forall a b : str, _escape_html a = _escape_html b -> a = b.
Proof.
  intros a b. rewrite !escape_html_as_flat_map. unfold Spec.escape.
  revert b. induction a as [|c a IH]; intros [|d b]; simpl.
  - reflexivity.
  - intro H.
    destruct (escape_char_cases d)
      as [[_ E] | [[_ E] | [[_ E] | [_ [_ [_ E]]]]]];
      rewrite E in H; discriminate H.
  - intro H.
    destruct (escape_char_cases c)
      as [[_ E] | [[_ E] | [[_ E] | [_ [_ [_ E]]]]]];
      rewrite E in H; discriminate H.
  - intro H.
    destruct (escape_char_cases c)
      as [[Hc E] | [[Hc E] | [[Hc E] | [C38 [C60 [C62 E]]]]]];
      destruct (escape_char_cases d)
        as [[Hd E'] | [[Hd E'] | [[Hd E'] | [D38 [D60 [D62 E']]]]]];
      rewrite E, E' in H; simpl in H; inversion H; subst;
      try congruence; f_equal; apply IH; assumption.
Qed.

Lemma escape_html_injective_witness : lit "a<b" = lit "a<b".
Proof. apply escape_html_injective. reflexivity. Defined.

(* ------------------------------------------------------------------ *)
(** ** Verdicts, colours and the order of scores *)

(** A higher score never gets a worse verdict: above a score that is
    "Likely True" every score is "Likely True", and below a score that is
    "Likely False" every score is "Likely False". *)
Theorem verdict_from_score_monotone :
  forall s1 s2 : float,
    le s1 s2 = true ->
    (verdict_from_score s1 = Spec.likely_true ->
     verdict_from_score s2 = Spec.likely_true) /\
    (verdict_from_score s2 = Spec.likely_false ->
     verdict_from_score s1 = Spec.likely_false).
Proof.
  intros s1 s2 H12. unfold verdict_from_score, ge, le in *. split.
  - destruct (SFleb f0_6 s1) eqn:G1.
    + rewrite (leb_trans _ _ _ G1 H12). reflexivity.
    + destruct (SFleb s1 f0_4); discriminate.
  - destruct (SFleb f0_6 s2) eqn:G2; [discriminate|].
    destruct (SFleb s2 f0_4) eqn:L2; [|discriminate]. intros _.
    pose proof (leb_trans _ _ _ H12 L2) as L1.
    destruct (SFleb f0_6 s1) eqn:G1.
    + rewrite (leb_gap f0_4 f0_6 s1 eq_refl G1) in L1. discriminate.
    + rewrite L1. reflexivity.
Qed.

Lemma verdict_from_score_monotone_witness :
  verdict_from_score f0_7 = Spec.likely_true /\
  verdict_from_score f0_3 = Spec.likely_false.
Proof.
  split.
  - apply (proj1 (@verdict_from_score_monotone f0_6 f0_7 eq_refl)).
    reflexivity.
  - apply (proj2 (@verdict_from_score_monotone f0_3 f0_4 eq_refl)).
    reflexivity.
Defined.

(** The colour of a sentence agrees with the verdict that the same score
    would get: green exactly for "Likely True", red exactly for "Likely
    False", yellow exactly for "Uncertain". *)
Theorem sentence_colour_agrees_with_verdict :
  forall s : float,
    (verdict_from_score s = Spec.likely_true <->
     Props.is_green (sentence_bg_color s) = true) /\
    (verdict_from_score s = Spec.likely_false <->
     Props.is_red (sentence_bg_color s) = true) /\
    (verdict_from_score s = Spec.uncertain <->
     Props.is_yellow (sentence_bg_color s) = true).
Proof.
  intro s.
  assert (H76 : ge s f0_7 = true -> ge s f0_6 = true).
  { unfold ge. intro G. apply (leb_trans f0_6 f0_7 s eq_refl G). }
  assert (H34 : le s f0_3 = true -> le s f0_4 = true).
  { unfold le. intro L. apply (leb_trans s f0_3 f0_4 L eq_refl). }
  unfold verdict_from_score, sentence_bg_color.
  destruct (ge s f0_7) eqn:G7.
  { rewrite (H76 eq_refl). repeat split; try reflexivity; discriminate. }
  destruct (ge s f0_6) eqn:G6.
  { repeat split; try reflexivity; discriminate. }
  destruct (le s f0_3) eqn:L3.
  { rewrite (H34 eq_refl). repeat split; try reflexivity; discriminate. }
  destruct (le s f0_4) eqn:L4;
    repeat split; try reflexivity; discriminate.
Qed.

(* ------------------------------------------------------------------ *)
(** ** More on the language-code mapper *)

Lemma dict_get_In {V} (d : PyDict.dict V) (k : str) (v : V) :
  PyDict.get d k = Some v -> In v (List.map snd d).
Proof.
  induction d as [|[k0 v0] d IH]; simpl; [discriminate|].
  destruct (str_eqb k k0).
  - intro H. inversion H. left. reflexivity.
  - intro H. right. apply IH. exact H.
Qed.

(** The mapper returns a code of at most two characters, whatever its
    input. *)
Theorem map_langdetect_to_m2m_at_most_two :
  forall (unicode_lower : str -> str) (lang_code : option str),
    List.length (map_langdetect_to_m2m unicode_lower lang_code) <= 2.
Proof.
  intros ul [code|]; [|simpl; lia].
  unfold map_langdetect_to_m2m.
  destruct (is_empty code); [simpl; lia|].
  destruct (PyDict.get special_map (str_lower ul code)) as [v|] eqn:E.
  - apply dict_get_In in E.
    assert (Hall : Forall (fun v : str => List.length v <= 2)
                          (List.map snd special_map)).
    { repeat constructor. }
    rewrite Forall_forall in Hall. apply Hall. exact E.
  - rewrite length_firstn. lia.
Qed.

Lemma ascii_lower_idem (c : char) : ascii_lower (ascii_lower c) = ascii_lower c.
Proof.
  unfold ascii_lower.
  destruct (N.leb_spec 65 c), (N.leb_spec c 90); simpl; try reflexivity.
  - destruct (N.leb_spec 65 (c + 32)), (N.leb_spec (c + 32) 90); simpl;
      try reflexivity; lia.
  - destruct (N.leb_spec 65 c), (N.leb_spec c 90); simpl;
      try reflexivity; lia.
  - destruct (N.leb_spec 65 c), (N.leb_spec c 90); simpl;
      try reflexivity; lia.
  - destruct (N.leb_spec 65 c), (N.leb_spec c 90); simpl;
      try reflexivity; lia.
Qed.

Lemma ascii_lower_is_ascii (c : char) :
  is_ascii (ascii_lower c) = is_ascii c.
Proof.
  unfold ascii_lower, is_ascii.
  destruct (N.leb_spec 65 c), (N.leb_spec c 90); simpl; try reflexivity.
  destruct (N.ltb_spec (c + 32) 128), (N.ltb_spec c 128);
    try reflexivity; lia.
Qed.

Lemma forallb_is_ascii_lower (l : str) :
  forallb is_ascii (List.map ascii_lower l) = forallb is_ascii l.
Proof.
  induction l as [|c l IH]; [reflexivity|]. simpl.
  rewrite ascii_lower_is_ascii, IH. reflexivity.
Qed.

(** On codes of ASCII characters the mapper ignores case: a code and its
    lower-cased form map to the same code. *)
Theorem map_langdetect_to_m2m_ignores_case :
  forall (unicode_lower : str -> str) (code : str),
    forallb is_ascii code = true ->
    map_langdetect_to_m2m unicode_lower (Some code)
    = map_langdetect_to_m2m unicode_lower (Some (List.map ascii_lower code)).
Proof.
  intros ul code Hascii. unfold map_langdetect_to_m2m.
  destruct code as [|c code]; [reflexivity|].
  cbn [is_empty List.map].
  assert (E : str_lower ul (List.map ascii_lower (c :: code))
              = str_lower ul (c :: code)).
  { unfold str_lower. rewrite Hascii.
    rewrite forallb_is_ascii_lower, Hascii.
    rewrite map_map. apply map_ext. apply ascii_lower_idem. }
  cbn [List.map] in E. rewrite E. reflexivity.
Qed.

Lemma map_langdetect_to_m2m_ignores_case_witness :
  map_langdetect_to_m2m Fixtures.lower_ascii_only (Some (lit "ZH-Tw"))
  = map_langdetect_to_m2m Fixtures.lower_ascii_only (Some (lit "zh-tw")).
Proof.
  apply (@map_langdetect_to_m2m_ignores_case Fixtures.lower_ascii_only
           (lit "ZH-Tw")).
  reflexivity.
Defined.

(* ------------------------------------------------------------------ *)
(** ** Sentences of the splitter are stable *)

Section SplitterStable.

Import Spec Props.

Lemma isspace_not_terminator (c : char) :
  isspace c = true -> terminator c = false /\ cjk_terminator c = false.
Proof.
  intro H. unfold terminator, cjk_terminator.
  destruct (N.eqb_spec c 46) as [->|]; [discriminate H|].
  destruct (N.eqb_spec c 33) as [->|]; [discriminate H|].
  destruct (N.eqb_spec c 63) as [->|]; [discriminate H|].
  destruct (N.eqb_spec c 12290) as [->|]; [discriminate H|].
  destruct (N.eqb_spec c 65281) as [->|]; [discriminate H|].
  destruct (N.eqb_spec c 65311) as [->|]; [discriminate H|].
  split; reflexivity.
Qed.

Lemma no_boundary_weaken (p : bool) (s : str) :
  no_boundary true s = true -> no_boundary p s = true.
Proof.
  destruct p; [trivial|]. destruct s as [|c r]; [trivial|]. simpl.
  intro H. apply andb_prop in H. destruct H as [_ H]. exact H.
Qed.

(** A text without a whitespace character after a terminator is not
    split. *)
Lemma re_split_no_boundary (s : str) :
  forall p, no_boundary p s = true -> re_split false p s = [s].
Proof.
  induction s as [|c r IH]; intros p H; [reflexivity|].
  simpl in H. apply andb_prop in H. destruct H as [Hc Hr].
  simpl. destruct (isspace c) eqn:Sc.
  - destruct p; [discriminate Hc|].
    rewrite (proj1 (isspace_not_terminator c Sc)) in Hr.
    rewrite (IH false Hr). reflexivity.
  - rewrite (IH _ Hr). reflexivity.
Qed.

(** No fragment of a split has a whitespace character after a
    terminator. *)
Lemma re_split_fragments (s : str) :
  forall b p,
    exists f fs,
      re_split b p s = f :: fs /\
      no_boundary (p || b) f = true /\
      Forall (fun x => no_boundary false x = true) fs.
Proof.
  induction s as [|c r IH]; intros b p.
  - exists [], []. repeat split. constructor.
  - simpl. destruct (isspace c) eqn:Sc.
    + destruct b.
      * destruct (IH true false) as [f [fs [E [Hf Hfs]]]].
        exists f, fs. rewrite orb_true_r. auto.
      * destruct p.
        -- destruct (IH true false) as [f [fs [E [Hf Hfs]]]].
           exists [], (f :: fs). rewrite E. repeat split.
           constructor; [apply no_boundary_weaken; exact Hf | exact Hfs].
        -- destruct (IH false false) as [f [fs [E [Hf Hfs]]]].
           exists (c :: f), fs. rewrite E. repeat split; [|exact Hfs].
           simpl. rewrite (proj1 (isspace_not_terminator c Sc)).
           exact Hf.
    + destruct (IH false (terminator c)) as [f [fs [E [Hf Hfs]]]].
      exists (c :: f), fs. rewrite E. repeat split; [|exact Hfs].
      simpl. rewrite Sc, andb_false_r. rewrite orb_false_r in Hf.
      exact Hf.
Qed.

Lemma re_split_all_no_boundary (s : str) :
  Forall (fun x => no_boundary false x = true) (re_split false false s).
Proof.
  destruct (re_split_fragments s false false) as [f [fs [E [Hf Hfs]]]].
  rewrite E. constructor; assumption.
Qed.

Lemma no_boundary_lstrip (s : str) :
  no_boundary false s = true -> no_boundary false (lstrip s) = true.
Proof.
  induction s as [|c r IH]; [trivial|]. intro H. simpl.
  destruct (isspace c) eqn:Sc; [|exact H].
  apply IH. simpl in H.
  rewrite (proj1 (isspace_not_terminator c Sc)) in H. exact H.
Qed.

Lemma no_boundary_prefix (a b : str) :
  forall p, no_boundary p (a ++ b) = true -> no_boundary p a = true.
Proof.
  induction a as [|c a IH]; intros p H; [reflexivity|].
  simpl in *. apply andb_prop in H. destruct H as [Hc Hr].
  rewrite Hc, (IH _ Hr). reflexivity.
Qed.

(** [s.rstrip()] is [s] without some characters at its end. *)
Lemma rstrip_prefix (s : str) : exists ws, s = rstrip s ++ ws.
Proof.
  induction s as [|c s IH]; [exists []; reflexivity|].
  rewrite rstrip_cons. destruct IH as [ws IH].
  destruct (rstrip s) as [|x r] eqn:R.
  - destruct (isspace c); [exists (c :: s) | exists s]; reflexivity.
  - exists ws. simpl. rewrite IH at 1. reflexivity.
Qed.

Lemma no_boundary_strip (s : str) :
  no_boundary false s = true -> no_boundary false (strip s) = true.
Proof.
  intro H. unfold strip.
  destruct (rstrip_prefix (lstrip s)) as [ws E].
  apply no_boundary_lstrip in H. rewrite E in H.
  apply (no_boundary_prefix _ _ _ H).
Qed.

Lemma sub_cjk_space_spaced (text : str) :
  cjk_spaced (sub_cjk_space text) = true.
Proof.
  induction text as [|c text IH]; [reflexivity|]. simpl.
  destruct (cjk_terminator c) eqn:C; simpl; rewrite C, IH; reflexivity.
Qed.

Lemma Forall_push (P : str -> Prop) (c : char) (parts : list str) :
  P [c] -> (forall f, P f -> P (c :: f)) ->
  Forall P parts -> Forall P (push c parts).
Proof.
  intros H1 Hc H. destruct H as [|f fs Hf Hfs]; simpl.
  - constructor; [exact H1 | constructor].
  - constructor; [apply Hc; exact Hf | exact Hfs].
Qed.

(** In the fragments of a text whose CJK terminators are followed by
    whitespace, a CJK terminator is always the last character. *)
Lemma re_split_cjk_only_last (s : str) :
  forall b p,
    cjk_spaced s = true ->
    Forall (fun f => cjk_only_last f = true) (re_split b p s).
Proof.
  induction s as [|c r IH]; intros b p H.
  - repeat constructor.
  - simpl in H. apply andb_prop in H. destruct H as [Hc Hr].
    simpl. destruct (isspace c) eqn:Sc.
    + destruct b; [apply IH; exact Hr|].
      destruct p; [constructor; [reflexivity | apply IH; exact Hr]|].
      apply Forall_push; [reflexivity | | apply IH; exact Hr].
      intros f Hf. simpl.
      rewrite (proj2 (isspace_not_terminator c Sc)), Hf, orb_true_r.
      reflexivity.
    + destruct (cjk_terminator c) eqn:C.
      * destruct r as [|x r']; [discriminate Hc|].
        assert (T : terminator c = true).
        { unfold terminator. rewrite C. apply orb_true_r. }
        rewrite T. simpl. rewrite Hc. simpl.
        constructor; [reflexivity|].
        specialize (IH false true Hr). simpl in IH. rewrite Hc in IH.
        inversion IH; assumption.
      * apply Forall_push; [reflexivity | | apply IH; exact Hr].
        intros f Hf. simpl. rewrite C, Hf. simpl. rewrite orb_true_r.
        reflexivity.
Qed.

Lemma cjk_only_last_lstrip (s : str) :
  cjk_only_last s = true -> cjk_only_last (lstrip s) = true.
Proof.
  induction s as [|c r IH]; [trivial|]. intro H. simpl.
  destruct (isspace c); [|exact H].
  apply IH. simpl in H. apply andb_prop in H. apply H.
Qed.

Lemma cjk_only_last_prefix (a b : str) :
  cjk_only_last (a ++ b) = true -> cjk_only_last a = true.
Proof.
  induction a as [|c a IH]; intro H; [reflexivity|].
  simpl in *. apply andb_prop in H. destruct H as [Hc Hr].
  rewrite (IH Hr), andb_true_r.
  destruct a as [|x a]; [reflexivity|]. exact Hc.
Qed.

Lemma cjk_only_last_strip (s : str) :
  cjk_only_last s = true -> cjk_only_last (strip s) = true.
Proof.
  intro H. unfold strip.
  destruct (rstrip_prefix (lstrip s)) as [ws E].
  apply cjk_only_last_lstrip in H. rewrite E in H.
  apply (cjk_only_last_prefix _ _ H).
Qed.

(** Inserting the spaces changes such a fragment at most at its end. *)
Lemma sub_cjk_space_only_last (s : str) :
  cjk_only_last s = true ->
  sub_cjk_space s = s \/ sub_cjk_space s = s ++ [32%N].
Proof.
  induction s as [|c r IH]; [left; reflexivity|]. intro H.
  simpl in H. apply andb_prop in H. destruct H as [Hc Hr].
  destruct r as [|x r'].
  - simpl. destruct (cjk_terminator c); [right | left]; reflexivity.
  - simpl in Hc. apply negb_true_iff in Hc.
    change (sub_cjk_space (c :: x :: r'))
      with ((if cjk_terminator c then [c; 32%N] else [c])
            ++ sub_cjk_space (x :: r')).
    rewrite Hc. destruct (IH Hr) as [E | E]; rewrite E;
      [left | right]; reflexivity.
Qed.

Lemma strip_app_space (s : str) : strip (s ++ [32%N]) = strip s.
Proof.
  rewrite !strip_lstrip_rstrip. f_equal.
  unfold rstrip. rewrite rev_app_distr. reflexivity.
Qed.

Lemma split_stable_sentence (s : str) :
  s <> [] -> strip s = s ->
  no_boundary false s = true -> cjk_only_last s = true ->
  split_into_sentences s = [s].
Proof.
  intros Hne Hs Hnb Hcjk.
  rewrite split_into_sentences_refines. unfold Spec.split.
  assert (E : trimmed_nonempty (re_split false false s) = [s]).
  { rewrite (re_split_no_boundary _ _ Hnb). unfold trimmed_nonempty.
    simpl. rewrite Hs. destruct s; [contradiction Hne; reflexivity|].
    reflexivity. }
  destruct (sub_cjk_space_only_last _ Hcjk) as [-> | ->]; [exact E|].
  rewrite <- re_split_strip, strip_app_space, Hs. exact E.
Qed.

End SplitterStable.

(** Splitting is idempotent on its own output: every sentence that
    [split_into_sentences] returns splits into exactly itself. *)
Theorem split_into_sentences_idempotent :
  forall text s : str,
    In s (split_into_sentences text) -> split_into_sentences s = [s].
Proof.
  intros text s Hin.
  rewrite split_into_sentences_refines in Hin.
  destruct (In_trimmed_nonempty _ _ Hin) as [Hne Hs].
  unfold Spec.split, Spec.trimmed_nonempty in Hin.
  apply filter_In in Hin. destruct Hin as [Hin _].
  apply in_map_iff in Hin. destruct Hin as [f [Ef Hf]]. subst s.
  apply split_stable_sentence; [exact Hne | exact Hs | |].
  - apply no_boundary_strip.
    pose proof (re_split_all_no_boundary (sub_cjk_space text)) as H.
    rewrite Forall_forall in H. apply H. exact Hf.
  - apply cjk_only_last_strip.
    pose proof (re_split_cjk_only_last (sub_cjk_space text) false false
                  (sub_cjk_space_spaced text)) as H.
    rewrite Forall_forall in H. apply H. exact Hf.
Qed.

Lemma split_into_sentences_idempotent_witness :
  split_into_sentences (lit "This is great!") = [lit "This is great!"].
Proof.
  apply (@split_into_sentences_idempotent
           (lit "Hello world. This is great!") (lit "This is great!")).
  right. left. reflexivity.
Defined.

Lemma content_nil_spaces (s : str) :
  filter (fun c => negb (isspace c)) s = [] -> forallb isspace s = true.
Proof.
  induction s as [|c s IH]; [reflexivity|]. simpl.
  destruct (isspace c); simpl; [exact IH | discriminate].
Qed.

(** The splitter returns no sentence exactly for the texts that are empty
    or whitespace only: a text with any other character gives at least one
    sentence. *)
Theorem split_into_sentences_empty_iff :
  forall text : str,
    split_into_sentences text = [] <-> forallb isspace text = true.
Proof.
  intro text. split.
  - intro H. apply content_nil_spaces.
    rewrite <- (content_sub_cjk_space text),
      <- (content_re_split (sub_cjk_space text) false false),
      <- content_trimmed_nonempty.
    fold (Spec.split text). rewrite <- split_into_sentences_refines, H.
    reflexivity.
  - intro H. rewrite split_into_sentences_refines.
    apply split_spec_spaces. exact H.
Qed.

(* ------------------------------------------------------------------ *)
(** ** The pipeline on a text that is not empty *)

Section Pipeline.

Variable unicode_lower : str -> str.
Variable be : Backend.

Lemma bind_returned {A B} (m : M A) (f : A -> M B) (t t' : Trace) (b : B) :
  bind m f t = (Returned b, t') ->
  exists a t1, m t = (Returned a, t1) /\ f a t1 = (Returned b, t').
Proof.
  unfold bind. destruct (m t) as [[a|e] t1]; [|discriminate].
  intro H. exists a, t1. auto.
Qed.

Lemma build_highlighted_html_trace (l : list SentenceScore) (t : Trace) :
  snd (build_highlighted_html l t) = t.
Proof.
  destruct (mapM_highlighted_span l t) as [Ht _].
  unfold build_highlighted_html, bind, ret.
  destruct (mapM highlighted_span l t) as [[spans|e] t1]; exact Ht.
Qed.

Lemma split_into_sentences_nil_spaces (text : str) :
  split_into_sentences text = [] -> forallb isspace text = true.
Proof.
  intro H. apply content_nil_spaces.
  rewrite <- (content_sub_cjk_space text),
    <- (content_re_split (sub_cjk_space text) false false),
    <- content_trimmed_nonempty.
  fold (Spec.split text). rewrite <- split_into_sentences_refines, H.
  reflexivity.
Qed.

Lemma detect_language_at (text : str) (t : Trace) :
  detect_language be text t
  = (Returned (Props.detected be text), t ++ [CallDetect text]).
Proof.
  unfold detect_language, try_except, call, ret, Props.detected.
  destruct (detect be text); reflexivity.
Qed.

Lemma classify_truth_score_at (text : str) (t : Trace) :
  is_empty (strip text) = false ->
  classify_truth_score unicode_lower be text t
  = (match zero_shot be text candidate_labels hypothesis_template with
     | Returned res => Returned (true_score_of unicode_lower res)
     | Raised e => Raised e
     end,
     t ++ [CallZeroShot text candidate_labels hypothesis_template false]).
Proof.
  intro H. unfold classify_truth_score. rewrite H.
  unfold bind, call, ret.
  destruct (zero_shot be text candidate_labels hypothesis_template);
    reflexivity.
Qed.

Lemma classify_sentences_at (s : str) (rest : list str) (cap : Z)
    (t : Trace) :
  let sentences := s :: rest in
  let limited := slice_to sentences cap in
  classify_sentences unicode_lower be sentences cap t
  = (match zero_shot_batch be limited candidate_labels hypothesis_template
     with
     | Returned results =>
         Returned (List.map (Spec.scored unicode_lower)
                            (combine limited results)
                   ++ List.map Spec.neutral
                        (skipn (List.length limited) sentences))
     | Raised e => Raised e
     end,
     t ++ [CallZeroShotBatch limited candidate_labels hypothesis_template
             false]).
Proof.
  cbv zeta. unfold classify_sentences, bind, call, ret.
  destruct (zero_shot_batch be (slice_to (s :: rest) cap) candidate_labels
              hypothesis_template); reflexivity.
Qed.

(** The sentences of the result of [classify_sentences] are sentences of
    its input, and there are no more of them than in the input. *)
Lemma classify_sentences_subset (sentences : list str) (cap : Z)
    (t t' : Trace) (out : list SentenceScore) :
  classify_sentences unicode_lower be sentences cap t = (Returned out, t') ->
  Forall (fun ss => In (sentence ss) sentences) out /\
  List.length out <= List.length sentences.
Proof.
  destruct sentences as [|s rest].
  { intro H. inversion H. split; [constructor | reflexivity]. }
  rewrite classify_sentences_at. cbv zeta.
  destruct (zero_shot_batch be _ candidate_labels hypothesis_template)
    as [results|e]; [|discriminate].
  intro H. inversion H; subst out; clear H.
  destruct (slice_to_firstn (s :: rest) cap) as [k Ek]. rewrite Ek.
  generalize (s :: rest) as l. intro l. split.
  - apply Forall_app. split; apply Forall_forall; intros ss Hin;
      apply in_map_iff in Hin; destruct Hin as [x [<- Hx]]; simpl.
    + destruct x as [sent res]. apply in_combine_l in Hx. simpl.
      rewrite <- (firstn_skipn k l). apply in_or_app. left. exact Hx.
    + rewrite <- (firstn_skipn (List.length (firstn k l)) l).
      apply in_or_app. right. exact Hx.
  - rewrite length_app, !length_map, length_combine, length_skipn,
      !length_firstn. lia.
Qed.

(** The pipeline after the detection and the translation, for an article
    that is not blank and a translated text that is not blank. *)
Lemma process_run (text translated : str) (calls : Trace) :
  let t := strip text in
  is_empty t = false ->
  translate_to_english unicode_lower be t (Props.detected be t)
    [CallDetect t] = (Returned translated, CallDetect t :: calls) ->
  is_empty (strip translated) = false ->
  (forall e,
      zero_shot be translated candidate_labels hypothesis_template
      = Raised e ->
      run (process unicode_lower be (Some text))
      = (Raised e,
         CallDetect t
         :: calls ++ [CallZeroShot translated candidate_labels
                        hypothesis_template false])) /\
  (forall res,
      zero_shot be translated candidate_labels hypothesis_template
      = Returned res ->
      snd (run (process unicode_lower be (Some text)))
      = CallDetect t
        :: calls
           ++ [CallZeroShot translated candidate_labels hypothesis_template
                 false;
               CallZeroShotBatch
                 (slice_to (split_into_sentences translated) 40)
                 candidate_labels hypothesis_template false] /\
      forall r,
        fst (run (process unicode_lower be (Some text))) = Returned r ->
        detected_language r = Props.detected be t /\
        translated_text r = translated /\
        overall_true_score r = true_score_of unicode_lower res).
Proof.
  intros t Hne Htr Hst.
  assert (Ht : strip (if is_empty text then [] else text) = t).
  { destruct text; reflexivity. }
  assert (Hsplit : exists s rest,
             split_into_sentences translated = s :: rest).
  { destruct (split_into_sentences translated) as [|s rest] eqn:E;
      [|exists s, rest; reflexivity].
    apply split_into_sentences_nil_spaces in E.
    apply strip_nil_iff in E. rewrite E in Hst. discriminate. }
  destruct Hsplit as [s [rest Hsplit]].
  unfold run, process. rewrite Ht, Hne.
  unfold bind. rewrite detect_language_at. cbv beta iota. simpl app.
  rewrite Htr.
  rewrite classify_truth_score_at by exact Hst.
  split.
  - intros e ->. reflexivity.
  - intros res ->.
    destruct (verdict_from_score (true_score_of unicode_lower res))
      as [label color].
    rewrite Hsplit, classify_sentences_at.
    cbv zeta.
    assert (Happ : forall a b : Call,
               ((CallDetect t :: calls) ++ [a]) ++ [b]
               = CallDetect t :: calls ++ [a; b]).
    { intros. simpl. rewrite <- app_assoc. reflexivity. }
    rewrite Happ.
    destruct (zero_shot_batch be _ candidate_labels hypothesis_template)
      as [results|e]; [|split; [reflexivity | discriminate]].
    match goal with
    | |- context [build_highlighted_html ?l ?tr] =>
        pose proof (build_highlighted_html_trace l tr) as Hb;
        destruct (build_highlighted_html l tr) as [[html|e] tr'];
        simpl in Hb; subst tr'
    end.
    + split; [reflexivity|]. unfold ret. simpl. intros r Hr.
      inversion Hr. auto.
    + split; [reflexivity | discriminate].
Qed.

(** The translation of a text that is not blank, at any point of the
    trace, when every step of the translation returns. *)
Lemma translate_to_english_at (text src_lang : str) (t0 : Trace)
    (encoded generated : Tensor) (en_id : Z) (first : str)
    (others : list str) :
  is_empty (strip text) = false ->
  startswith src_lang (lit "en") = false ->
  tokenize be (map_langdetect_to_m2m unicode_lower (Some src_lang))
    text 1024 = Returned encoded ->
  get_lang_id be (lit "en") = Returned en_id ->
  generate be encoded en_id 1024 = Returned generated ->
  batch_decode be generated = Returned (first :: others) ->
  translate_to_english unicode_lower be text src_lang t0
  = (Returned first,
     t0 ++ [CallSetSrcLang
              (map_langdetect_to_m2m unicode_lower (Some src_lang));
            CallTokenize text true 1024;
            CallGetLangId (lit "en");
            CallGenerate encoded en_id 1024;
            CallBatchDecode generated true]).
Proof.
  intros Hb He Htok Hid Hgen Hdec.
  unfold translate_to_english. rewrite Hb, He.
  unfold bind, call, ret. rewrite Htok, Hid, Hgen, Hdec.
  rewrite <- !app_assoc. reflexivity.
Qed.

End Pipeline.

(** When the detected code starts with "en", or the detector raises,
    [process] never uses the translation tokenizer or model: the trimmed
    article is the translated text, and it is what the classifier scores;
    and when the whole-text classifier raises, [process] raises the same
    exception without scoring any sentence. *)
Theorem process_english_skips_translation :
  forall (unicode_lower : str -> str) (be : Backend) (text : str),
    is_empty (strip text) = false ->
    startswith (Props.detected be (strip text)) (lit "en") = true ->
    forallb (fun c => negb (Props.is_translation_call c))
            (snd (run (process unicode_lower be (Some text)))) = true /\
    (forall r : ProcessResult,
        fst (run (process unicode_lower be (Some text))) = Returned r ->
        detected_language r = Props.detected be (strip text) /\
        translated_text r = strip text) /\
    (forall e : exn,
        zero_shot be (strip text) candidate_labels hypothesis_template
        = Raised e ->
        run (process unicode_lower be (Some text))
        = (Raised e,
           [CallDetect (strip text);
            CallZeroShot (strip text) candidate_labels hypothesis_template
              false])).
Proof.
  intros ul be text Hne Hen.
  assert (Hst : is_empty (strip (strip text)) = false).
  { rewrite strip_idem. exact Hne. }
  assert (Htr : translate_to_english ul be (strip text)
                  (Props.detected be (strip text)) [CallDetect (strip text)]
                = (Returned (strip text), CallDetect (strip text) :: [])).
  { unfold translate_to_english. rewrite Hst, Hen. reflexivity. }
  destruct (@process_run ul be text (strip text) [] Hne Htr Hst)
    as [Hraise Hret].
  destruct (zero_shot be (strip text) candidate_labels hypothesis_template)
    as [res|e] eqn:Ez.
  - destruct (Hret res eq_refl) as [Htrace Hfields].
    rewrite Htrace. split; [reflexivity|]. split; [|discriminate].
    intros r Hr. destruct (Hfields r Hr) as [Hd [Htt _]]. auto.
  - rewrite (Hraise e eq_refl). split; [reflexivity|].
    split; [discriminate|]. intros e' He'. inversion He'. reflexivity.
Qed.

Lemma process_english_skips_translation_witness :
  forallb (fun c => negb (Props.is_translation_call c))
          (snd (run (process Fixtures.lower_ascii_only
                       Examples.no_detector_backend
                       (Some (lit " Water is wet. It really is. ")))))
  = true.
Proof.
  apply (proj1 (@process_english_skips_translation
                  Fixtures.lower_ascii_only Examples.no_detector_backend
                  (lit " Water is wet. It really is. ")
                  eq_refl eq_refl)).
Defined.

(** When the detected code does not start with "en" and the translation
    returns a text that is not blank, the whole-text classifier is called
    on the translation, never on the article, right after the five
    translation calls; the result carries the detected code and the
    translation. *)
Theorem process_classifies_the_translation :
  forall (unicode_lower : str -> str) (be : Backend) (text : str)
         (encoded generated : Tensor) (en_id : Z) (first : str)
         (others : list str),
    let t := strip text in
    let src := Props.detected be t in
    let m2m_src := map_langdetect_to_m2m unicode_lower (Some src) in
    is_empty t = false ->
    startswith src (lit "en") = false ->
    tokenize be m2m_src t 1024 = Returned encoded ->
    get_lang_id be (lit "en") = Returned en_id ->
    generate be encoded en_id 1024 = Returned generated ->
    batch_decode be generated = Returned (first :: others) ->
    is_empty (strip first) = false ->
    (exists rest : Trace,
        snd (run (process unicode_lower be (Some text)))
        = [CallDetect t; CallSetSrcLang m2m_src; CallTokenize t true 1024;
           CallGetLangId (lit "en"); CallGenerate encoded en_id 1024;
           CallBatchDecode generated true;
           CallZeroShot first candidate_labels hypothesis_template false]
          ++ rest) /\
    (forall r : ProcessResult,
        fst (run (process unicode_lower be (Some text))) = Returned r ->
        detected_language r = src /\ translated_text r = first).
Proof.
  intros ul be text encoded generated en_id first others t src m2m_src
         Hne Hen Htok Hid Hgen Hdec Hfirst.
  assert (Hst : is_empty (strip t) = false).
  { unfold t. rewrite strip_idem. exact Hne. }
  pose proof (@translate_to_english_at ul be t src [CallDetect t] encoded
                generated en_id first others Hst Hen Htok Hid Hgen Hdec)
    as Htr.
  simpl app in Htr.
  destruct (@process_run ul be text first _ Hne Htr Hfirst)
    as [Hraise Hret].
  destruct (zero_shot be first candidate_labels hypothesis_template)
    as [res|e] eqn:Ez.
  - destruct (Hret res eq_refl) as [Htrace Hfields].
    rewrite Htrace. split.
    + eexists. simpl. reflexivity.
    + intros r Hr. destruct (Hfields r Hr) as [Hd [Htt _]]. auto.
  - rewrite (Hraise e eq_refl). split.
    + exists []. reflexivity.
    + discriminate.
Qed.

Lemma process_classifies_the_translation_witness :
  exists rest : Trace,
    snd (run (process Fixtures.lower_ascii_only Examples.french_backend
                (Some (lit " Le ciel est bleu. Vraiment! "))))
    = [CallDetect (lit "Le ciel est bleu. Vraiment!");
       CallSetSrcLang (lit "fr");
       CallTokenize (lit "Le ciel est bleu. Vraiment!") true 1024;
       CallGetLangId (lit "en");
       CallGenerate [[128028; 17; 2]%Z] 128022 1024;
       CallBatchDecode [[2; 128022; 94; 2]%Z] true;
       CallZeroShot (lit "The sky is blue. Really!") candidate_labels
         hypothesis_template false]
      ++ rest.
Proof.
  apply (proj1 (@process_classifies_the_translation
                  Fixtures.lower_ascii_only Examples.french_backend
                  (lit " Le ciel est bleu. Vraiment! ")
                  [[128028; 17; 2]%Z] [[2; 128022; 94; 2]%Z] 128022%Z
                  (lit "The sky is blue. Really!") []
                  eq_refl eq_refl eq_refl eq_refl eq_refl eq_refl eq_refl)).
Defined.

(** Whatever the collaborators answer, a result that [process] returns is
    either the empty result or consistent: its verdict label and colour are
    those of its overall score, each of its sentence scores is for a
    sentence of the splitter on its translated text, and it has no more
    sentence scores than the splitter gives sentences. *)
Theorem process_result_consistent :
  forall (unicode_lower : str -> str) (be : Backend)
         (article_text : option str) (r : ProcessResult) (tr : Trace),
    run (process unicode_lower be article_text) = (Returned r, tr) ->
    r = Spec.empty_result \/
    ((verdict_label r, verdict_color r)
     = verdict_from_score (overall_true_score r) /\
     Forall (fun ss => In (sentence ss)
                          (split_into_sentences (translated_text r)))
            (sentence_scores r) /\
     List.length (sentence_scores r)
     <= List.length (split_into_sentences (translated_text r))).
Proof.
  intros ul be article r tr. unfold run, process.
  destruct (is_empty (strip _)).
  { intro H. inversion H. left. reflexivity. }
  intro H. right.
  apply bind_returned in H. destruct H as [lang [t1 [_ H]]].
  apply bind_returned in H. destruct H as [translated [t2 [_ H]]].
  apply bind_returned in H. destruct H as [overall [t3 [_ H]]].
  destruct (verdict_from_score overall) as [label color] eqn:Ev.
  apply bind_returned in H. destruct H as [sent_scores [t4 [Hcs H]]].
  apply bind_returned in H. destruct H as [html [t5 [_ H]]].
  inversion H; subst r; clear H. simpl.
  split; [symmetry; exact Ev|].
  apply (classify_sentences_subset _ _ _ _ _ Hcs).
Qed.

Lemma process_result_consistent_witness :
  exists r : ProcessResult,
    fst (run (process Fixtures.lower_ascii_only Examples.french_backend
                (Some (lit "Le ciel est bleu. Vraiment!")))) = Returned r /\
    (verdict_label r, verdict_color r) = Spec.likely_true /\
    List.length (sentence_scores r) <= 2.
Proof.
  destruct (run (process Fixtures.lower_ascii_only Examples.french_backend
                   (Some (lit "Le ciel est bleu. Vraiment!"))))
    as [o tr] eqn:E.
  assert (Ho : exists r, o = Returned r).
  { vm_compute in E. inversion E. eexists. reflexivity. }
  destruct Ho as [r ->]. exists r. split; [reflexivity|].
  destruct (@process_result_consistent Fixtures.lower_ascii_only
              Examples.french_backend
              (Some (lit "Le ciel est bleu. Vraiment!")) r tr E)
    as [Hempty | [Hv [_ Hlen]]].
  - vm_compute in E. injection E as Er Etr. subst r.
    discriminate Hempty.
  - vm_compute in E. injection E as Er Etr. subst r.
    split; [exact Hv | exact Hlen].
Defined.

(* ------------------------------------------------------------------ *)
(** ** The board of the game page *)

Section BoardProps.

Import SnakeLadder Board.

Lemma py_index_first_two (p0 p1 : Z) (rest : list Z) :
  py_index (p0 :: p1 :: rest) 0 = Returned p0 /\
  py_index (p0 :: p1 :: rest) 1 = Returned p1.
Proof.
  unfold py_index. cbn [List.length Z.ltb Z.compare].
  cbv beta iota zeta.
  assert (H : (2 <= Z.of_nat (S (S (List.length rest))))%Z) by lia.
  split.
  - destruct (Z.ltb_spec 0 (Z.of_nat (S (S (List.length rest)))));
      [reflexivity | lia].
  - destruct (Z.ltb_spec 1 (Z.of_nat (S (S (List.length rest)))));
      [reflexivity | lia].
Qed.

Lemma cell_first_two (p0 p1 : Z) (rest : list Z) (sn ld : int_dict)
    (num : Z) :
  cell (p0 :: p1 :: rest) sn ld num = Returned (cell_of p0 p1 sn ld num).
Proof.
  unfold cell, cell_of.
  destruct (py_index_first_two p0 p1 rest) as [-> ->]. simpl obind.
  destruct (p0 =? num)%Z, (p1 =? num)%Z; try reflexivity.
  destruct (dict_mem sn num); [reflexivity|].
  destruct (dict_mem ld num); reflexivity.
Qed.

Lemma omapM_returned {A B} (f : A -> outcome B) (g : A -> B) (l : list A) :
  (forall a, f a = Returned (g a)) -> omapM f l = Returned (List.map g l).
Proof.
  intro H. induction l as [|a l IH]; [reflexivity|].
  simpl. rewrite H, IH. reflexivity.
Qed.

Lemma board_text_first_two (p0 p1 : Z) (rest : list Z) (sn ld : int_dict) :
  board_text (p0 :: p1 :: rest) sn ld
  = Returned (List.concat
                (List.map (fun row => line_of p0 p1 sn ld row ++ [10%N])
                          rows)).
Proof.
  unfold board_text.
  rewrite (omapM_returned _
             (fun row => line_of p0 p1 sn ld row ++ [10%N])).
  - reflexivity.
  - intro row. unfold row_text, line_of.
    rewrite (omapM_returned _
               (fun col => cell_of p0 p1 sn ld ((row - 1) * 10 + col)%Z)).
    + unfold obind. rewrite map_map. reflexivity.
    + intro col. apply cell_first_two.
Qed.

Lemma cell_of_cases (p0 p1 : Z) (sn ld : int_dict) (num : Z) :
  (cell_of p0 p1 sn ld num = both_players_emoji /\ p0 = num /\ p1 = num) \/
  (cell_of p0 p1 sn ld num = player1_emoji /\ p0 = num /\ p1 <> num) \/
  (cell_of p0 p1 sn ld num = player2_emoji /\ p0 <> num /\ p1 = num) \/
  (p0 <> num /\ p1 <> num /\
   (cell_of p0 p1 sn ld num = snake_emoji \/
    cell_of p0 p1 sn ld num = ladder_emoji \/
    cell_of p0 p1 sn ld num = str_of_int num)).
Proof.
  unfold cell_of.
  destruct (Z.eqb_spec p0 num) as [E0 | N0],
           (Z.eqb_spec p1 num) as [E1 | N1].
  - left. auto.
  - right; left. auto.
  - right; right; left. auto.
  - right; right; right. split; [exact N0|]. split; [exact N1|].
    destruct (dict_mem sn num); [auto|].
    destruct (dict_mem ld num); auto.
Qed.

(** The numbers of the hundred squares are short, have no newline and no
    player marker. *)
Lemma numbers_ok :
  forallb (fun row =>
    forallb (fun col =>
      let s := str_of_int ((row - 1) * 10 + col)%Z in
      cell_ok s
      && negb (existsb (fun x => (x =? 128308) || (x =? 128309)
                                 || (x =? 128995))%N s))
      cols) rows = true.
Proof. vm_compute. reflexivity. Qed.

Lemma number_ok (row col : Z) :
  In row rows -> In col cols ->
  let s := str_of_int ((row - 1) * 10 + col)%Z in
  cell_ok s = true /\
  existsb (fun x => (x =? 128308) || (x =? 128309) || (x =? 128995))%N s
  = false.
Proof.
  intros Hr Hc. pose proof numbers_ok as H.
  rewrite forallb_forall in H. specialize (H row Hr).
  rewrite forallb_forall in H. specialize (H col Hc).
  cbv zeta in *. apply andb_prop in H. destruct H as [H1 H2].
  apply negb_true_iff in H2. auto.
Qed.

Lemma cell_of_ok (p0 p1 : Z) (sn ld : int_dict) (row col : Z) :
  In row rows -> In col cols ->
  cell_ok (cell_of p0 p1 sn ld ((row - 1) * 10 + col)%Z) = true.
Proof.
  intros Hr Hc.
  destruct (cell_of_cases p0 p1 sn ld ((row - 1) * 10 + col)%Z)
    as [[-> _] | [[-> _] | [[-> _] | [_ [_ [-> | [-> | ->]]]]]]];
    try reflexivity.
  apply (number_ok Hr Hc).
Qed.

Lemma rjust_ok (s : str) :
  cell_ok s = true ->
  List.length (rjust 4 s) = 4 /\ ~ In 10%N (rjust 4 s).
Proof.
  unfold cell_ok, rjust. intro H. apply andb_prop in H.
  destruct H as [Hlen Hnl]. apply Nat.leb_le in Hlen.
  apply negb_true_iff in Hnl. split.
  - rewrite length_app, repeat_length. unfold char in *. lia.
  - intro Hin. apply in_app_or in Hin. destruct Hin as [Hin | Hin].
    + apply repeat_spec in Hin. discriminate Hin.
    + assert (E : existsb (N.eqb 10) s = true).
      { apply existsb_exists. exists 10%N. split; [exact Hin|reflexivity]. }
      rewrite E in Hnl. discriminate.
Qed.

Lemma length_concat_map_const {A} (f : A -> str) (n : nat) (l : list A) :
  (forall a, In a l -> List.length (f a) = n) ->
  List.length (List.concat (List.map f l)) = n * List.length l.
Proof.
  induction l as [|a l IH]; intro H; simpl; [lia|].
  rewrite length_app, (H a (or_introl eq_refl)), IH; [lia|].
  intros x Hx. apply H. right. exact Hx.
Qed.

Lemma line_of_ok (p0 p1 : Z) (sn ld : int_dict) (row : Z) :
  In row rows ->
  List.length (line_of p0 p1 sn ld row) = 40 /\
  ~ In 10%N (line_of p0 p1 sn ld row).
Proof.
  intro Hr. unfold line_of. split.
  - rewrite length_concat_map_const with (n := 4); [reflexivity|].
    intros col Hc. apply rjust_ok, cell_of_ok; assumption.
  - intro Hin. apply in_concat in Hin. destruct Hin as [s [Hs Hin]].
    apply in_map_iff in Hs. destruct Hs as [col [<- Hc]].
    apply (proj2 (@rjust_ok _ (cell_of_ok p0 p1 sn ld Hr Hc))).
    exact Hin.
Qed.

(** A character of the board that is not a newline is a character of a
    cell. *)
Lemma In_board (p0 p1 : Z) (sn ld : int_dict) (x : N) :
  In x (List.concat
          (List.map (fun row => line_of p0 p1 sn ld row ++ [10%N]) rows))
  <-> x = 10%N \/
      exists row col,
        In row rows /\ In col cols /\
        In x (rjust 4 (cell_of p0 p1 sn ld ((row - 1) * 10 + col)%Z)).
Proof.
  split.
  - intro Hin. apply in_concat in Hin. destruct Hin as [s [Hs Hin]].
    apply in_map_iff in Hs. destruct Hs as [row [<- Hr]].
    apply in_app_or in Hin. destruct Hin as [Hin | [<- | []]];
      [|left; reflexivity].
    right. unfold line_of in Hin. apply in_concat in Hin.
    destruct Hin as [c [Hc Hin]]. apply in_map_iff in Hc.
    destruct Hc as [col [<- Hc]]. exists row, col. auto.
  - intros [-> | [row [col [Hr [Hc Hin]]]]].
    + apply in_concat. exists (line_of p0 p1 sn ld 10 ++ [10%N]).
      split; [left; reflexivity|].
      apply in_or_app. right. left. reflexivity.
    + apply in_concat. exists (line_of p0 p1 sn ld row ++ [10%N]).
      split; [apply in_map_iff; exists row; auto|].
      apply in_or_app. left. unfold line_of. apply in_concat.
      eexists. split; [|exact Hin].
      apply in_map_iff. exists col. auto.
Qed.

Lemma square_row_col (p : Z) :
  (1 <= p <= 100)%Z <->
  exists row col, In row rows /\ In col cols /\ p = ((row - 1) * 10 + col)%Z.
Proof.
  split.
  - intro H. exists ((p - 1) / 10 + 1)%Z, ((p - 1) mod 10 + 1)%Z.
    pose proof (Z.div_mod (p - 1) 10 ltac:(lia)) as Hdm.
    pose proof (Z.mod_pos_bound (p - 1) 10 ltac:(lia)) as Hm.
    assert (Hq : (0 <= (p - 1) / 10 <= 9)%Z).
    { split; [apply Z.div_pos; lia|].
      apply Z.lt_succ_r. apply Z.div_lt_upper_bound; lia. }
    split; [|split; [|lia]].
    + unfold rows. simpl. lia.
    + unfold cols. simpl. lia.
  - intros [row [col [Hr [Hc ->]]]]. unfold rows, cols in *.
    simpl in Hr, Hc. lia.
Qed.

End BoardProps.

(** With at least two positions, whatever they and the two tables are,
    [draw_board] shows a text of ten lines of exactly forty characters,
    each ended by a newline, and then the legend; with fewer than two
    positions it raises [IndexError]. *)
Theorem draw_board_ten_lines_of_forty :
  forall (p0 p1 : Z) (rest : list Z) (sn ld : SnakeLadder.int_dict),
    (exists lines : list str,
        Board.draw_board (p0 :: p1 :: rest) sn ld
        = Returned [Board.StText
                      (List.concat (List.map (fun l => l ++ [10%N]) lines));
                    Board.StMarkdown Board.legend] /\
        List.length lines = 10 /\
        Forall (fun l => List.length l = 40 /\ ~ In 10%N l) lines) /\
    Board.draw_board [] sn ld = Raised IndexError /\
    Board.draw_board [p0] sn ld = Raised IndexError.
Proof.
  intros p0 p1 rest sn ld. split; [|split].
  - exists (List.map (Board.line_of p0 p1 sn ld) Board.rows).
    unfold Board.draw_board. rewrite board_text_first_two.
    rewrite map_map. split; [reflexivity|]. split; [reflexivity|].
    apply Forall_forall. intros l Hl. apply in_map_iff in Hl.
    destruct Hl as [row [<- Hr]]. apply line_of_ok. exact Hr.
  - reflexivity.
  - unfold Board.draw_board, Board.board_text, Board.rows, Board.row_text,
      Board.cols.
    cbn [Board.omapM]. unfold Board.cell at 1.
    cbn [SnakeLadder.py_index SnakeLadder.obind List.length Z.of_nat Z.ltb
         Z.leb Z.compare andb Z.to_nat nth_error Pos.of_succ_nat
         Z.add Z.pos_sub].
    destruct (p0 =? _)%Z; reflexivity.
Qed.

(** The board shows a marker of player 1 (alone or with player 2) exactly
    when player 1 is on one of the squares 1 to 100, and the same for
    player 2: a player still on the start square 0 is not on the board. *)
Theorem draw_board_shows_players :
  forall (p0 p1 : Z) (rest : list Z) (sn ld : SnakeLadder.int_dict),
    exists board : str,
      Board.draw_board (p0 :: p1 :: rest) sn ld
      = Returned [Board.StText board; Board.StMarkdown Board.legend] /\
      ((In 128308%N board \/ In 128995%N board) <-> (1 <= p0 <= 100)%Z) /\
      ((In 128309%N board \/ In 128995%N board) <-> (1 <= p1 <= 100)%Z).
Proof.
  intros p0 p1 rest sn ld. eexists.
  unfold Board.draw_board. rewrite board_text_first_two.
  split; [reflexivity|].
  assert (Hmark : forall x : N,
            (x = 128308 \/ x = 128309 \/ x = 128995)%N ->
            forall row col, In row Board.rows -> In col Board.cols ->
            (In x (Board.rjust 4
                     (Board.cell_of p0 p1 sn ld ((row - 1) * 10 + col)%Z))
             <-> Board.cell_of p0 p1 sn ld ((row - 1) * 10 + col)%Z = [x])).
  { intros x Hx row col Hr Hc. unfold Board.rjust. split.
    - intro Hin. apply in_app_or in Hin. destruct Hin as [Hin | Hin].
      { apply repeat_spec in Hin. subst x.
        destruct Hx as [Hx | [Hx | Hx]]; discriminate Hx. }
      destruct (cell_of_cases p0 p1 sn ld ((row - 1) * 10 + col)%Z)
        as [[E _] | [[E _] | [[E _] | [_ [_ [E | [E | E]]]]]]];
        rewrite E in Hin |- *.
      1-5: destruct Hin as [<- | []];
           destruct Hx as [Hx | [Hx | Hx]]; try discriminate Hx;
           reflexivity.
      exfalso. destruct (number_ok Hr Hc) as [_ Hno].
      cbv zeta in Hno.
      assert (Hyes : existsb (fun x => (x =? 128308) || (x =? 128309)
                                       || (x =? 128995))%N
                       (str_of_int ((row - 1) * 10 + col)) = true).
      { apply existsb_exists. exists x. split; [exact Hin|].
        destruct Hx as [-> | [-> | ->]]; reflexivity. }
      rewrite Hyes in Hno. discriminate.
    - intros ->. apply in_or_app. right. left. reflexivity. }
  split.
  - rewrite !In_board. split.
    + intros [[C | [row [col [Hr [Hc Hin]]]]]
             | [C | [row [col [Hr [Hc Hin]]]]]]; try discriminate C;
        apply Hmark in Hin; auto;
        apply square_row_col; exists row, col;
        (split; [exact Hr|]); (split; [exact Hc|]);
        destruct (cell_of_cases p0 p1 sn ld ((row - 1) * 10 + col)%Z)
          as [[E [? ?]] | [[E [? ?]] | [[E [? ?]] | [? [? [E | [E | E]]]]]]];
        try assumption; rewrite E in Hin; try discriminate Hin.
      all: exfalso; destruct (number_ok Hr Hc) as [_ Hno];
        cbv zeta in Hno; rewrite Hin in Hno; discriminate Hno.
    + intro H. apply square_row_col in H.
      destruct H as [row [col [Hr [Hc ->]]]].
      destruct (Z.eq_dec p1 ((row - 1) * 10 + col)) as [E | E].
      * right. right. exists row, col. split; [exact Hr|].
        split; [exact Hc|]. apply Hmark; auto.
        unfold Board.cell_of. rewrite E, !Z.eqb_refl. reflexivity.
      * left. right. exists row, col. split; [exact Hr|].
        split; [exact Hc|]. apply Hmark; auto.
        unfold Board.cell_of. rewrite Z.eqb_refl.
        apply Z.eqb_neq in E. rewrite E. reflexivity.
  - rewrite !In_board. split.
    + intros [[C | [row [col [Hr [Hc Hin]]]]]
             | [C | [row [col [Hr [Hc Hin]]]]]]; try discriminate C;
        apply Hmark in Hin; auto;
        apply square_row_col; exists row, col;
        (split; [exact Hr|]); (split; [exact Hc|]);
        destruct (cell_of_cases p0 p1 sn ld ((row - 1) * 10 + col)%Z)
          as [[E [? ?]] | [[E [? ?]] | [[E [? ?]] | [? [? [E | [E | E]]]]]]];
        try assumption; rewrite E in Hin; try discriminate Hin.
      all: exfalso; destruct (number_ok Hr Hc) as [_ Hno];
        cbv zeta in Hno; rewrite Hin in Hno; discriminate Hno.
    + intro H. apply square_row_col in H.
      destruct H as [row [col [Hr [Hc ->]]]].
      destruct (Z.eq_dec p0 ((row - 1) * 10 + col)) as [E | E].
      * right. right. exists row, col. split; [exact Hr|].
        split; [exact Hc|]. apply Hmark; auto.
        unfold Board.cell_of. rewrite E, !Z.eqb_refl. reflexivity.
      * left. right. exists row, col. split; [exact Hr|].
        split; [exact Hc|]. apply Hmark; auto.
        unfold Board.cell_of. rewrite Z.eqb_refl.
        apply Z.eqb_neq in E. rewrite E. reflexivity.
Qed.

(* ------------------------------------------------------------------ *)
(** ** Instances on concrete inputs *)

Lemma play_winner_iff_on_100_witness :
  exists g : SnakeLadder.Game,
    SnakeLadder.play SnakeLadder.new_game
      [4; 2; 6; 2; 1; 2; 6; 2; 3; 2; 4; 2; 6; 2; 3]%Z = Returned g /\
    SnakeLadder.get_winner g = Some 0%Z /\
    SnakeLadder.current_player g = 1%Z.
Proof.
  destruct (play_winner_iff_on_100
              [4; 2; 6; 2; 1; 2; 6; 2; 3; 2; 4; 2; 6; 2; 3]%Z)
    as [g [Hplay [Hiff Hcur]]].
  exists g. split; [exact Hplay|].
  assert (Hw : SnakeLadder.get_winner g = Some 0%Z).
  { apply Hiff. split; [left; reflexivity|].
    vm_compute in Hplay. injection Hplay as <-. reflexivity. }
  split; [exact Hw|]. apply (proj1 (Hcur 0%Z Hw)).
Defined.

Lemma sentence_colour_agrees_with_verdict_witness :
  verdict_from_score f0_7 = Spec.likely_true /\
  Props.is_red (sentence_bg_color f0_3) = true.
Proof.
  split.
  - apply (proj2 (proj1 (sentence_colour_agrees_with_verdict f0_7))).
    reflexivity.
  - apply (proj1 (proj1 (proj2 (sentence_colour_agrees_with_verdict f0_3)))).
    reflexivity.
Defined.

Lemma split_into_sentences_empty_iff_witness :
  split_into_sentences [32; 9; 12288]%N = [] /\
  forallb isspace [] = true.
Proof.
  split.
  - apply (proj2 (split_into_sentences_empty_iff [32; 9; 12288]%N)).
    reflexivity.
  - apply (proj1 (split_into_sentences_empty_iff [])). reflexivity.
Defined.

Lemma draw_board_shows_players_witness :
  exists board : str,
    Board.draw_board [14; 0]%Z (SnakeLadder.snakes SnakeLadder.new_game)
      (SnakeLadder.ladders SnakeLadder.new_game)
    = Returned [Board.StText board; Board.StMarkdown Board.legend] /\
    (In 128308%N board \/ In 128995%N board) /\
    ~ (In 128309%N board \/ In 128995%N board).
Proof.
  destruct (draw_board_shows_players 14 0 []
              (SnakeLadder.snakes SnakeLadder.new_game)
              (SnakeLadder.ladders SnakeLadder.new_game))
    as [board [Hd [H0 H1]]].
  exists board. split; [exact Hd|]. split.
  - apply H0. lia.
  - intro H. apply H1 in H. lia.
Defined.

(* ------------------------------------------------------------------ *)
(** ** The mapper against the table of the specification *)

Section MapperTable.

Import MapperSpec.

(** [str.lower] on an ASCII character is the letter of the lower-case
    alphabet at the same place. *)
Lemma ascii_lower_letter (c : char) : ascii_lower c = lower_letter c.
Proof.
  unfold lower_letter, upper_letters, lower_letters.
  cbv [lit List.map list_ascii_of_string N_of_ascii N_of_digits letter_at].
  repeat match goal with
         | |- context [N.eq_dec c ?k] =>
             destruct (N.eq_dec c k) as [->|]; [reflexivity|]
         end.
  unfold ascii_lower.
  destruct (N.leb_spec 65 c), (N.leb_spec c 90); simpl; try reflexivity.
  lia.
Qed.

Lemma str_lower_lowered (unicode_lower : str -> str) (code : str) :
  str_lower unicode_lower code = lowered unicode_lower code.
Proof.
  unfold str_lower, lowered.
  change (forallb (fun c => (c <? 128)%N) code) with (forallb is_ascii code).
  destruct (forallb is_ascii code); [|reflexivity].
  apply map_ext. apply ascii_lower_letter.
Qed.

Lemma dict_get_absent {V} (d : PyDict.dict V) (k : str) :
  ~ In k (List.map fst d) -> PyDict.get d k = None.
Proof.
  induction d as [|[k0 v0] d IH]; intro H; simpl; [reflexivity|].
  rewrite str_eqb_neq.
  - apply IH. intro Hin. apply H. right. exact Hin.
  - intro E. apply H. left. symmetry. exact E.
Qed.

Lemma lookup_absent (groups : list (list string * string)) (k : str) :
  (forall keys v key, In (keys, v) groups -> In key keys -> k <> lit key) ->
  lookup groups k = None.
Proof.
  induction groups as [|[keys v] groups IH]; intro H; simpl; [reflexivity|].
  assert (E : existsb (fun key => same_code k (lit key)) keys = false).
  { destruct (existsb _ keys) eqn:Ex; [|reflexivity].
    apply existsb_exists in Ex. destruct Ex as [key [Hkey Hsame]].
    unfold same_code in Hsame.
    destruct (list_eq_dec N.eq_dec k (lit key)) as [Heq|]; [|discriminate].
    exfalso. apply (H keys v key); [left; reflexivity | exact Hkey | exact Heq]. }
  rewrite E. apply IH.
  intros keys' v' key Hin Hkey. apply (H keys' v' key); [right|]; assumption.
Qed.

(** The dictionary of the source and the table of the specification give
    the same answer for every code. *)
Lemma special_map_is_irregular (k : str) :
  PyDict.get special_map k = lookup irregular k.
Proof.
  destruct (in_dec (list_eq_dec N.eq_dec) k (List.map fst special_map))
    as [Hin | Hout].
  - simpl in Hin.
    repeat (destruct Hin as [<- | Hin]; [vm_compute; reflexivity|]).
    contradiction.
  - rewrite (dict_get_absent _ _ Hout). symmetry. apply lookup_absent.
    intros keys v key Hg Hkey Heq. apply Hout. subst k.
    simpl in Hg.
    repeat (destruct Hg as [Hg | Hg];
            [inversion Hg; subst; simpl in Hkey;
             repeat (destruct Hkey as [<- | Hkey];
                     [vm_compute; tauto|]);
             contradiction|]).
    contradiction.
Qed.

End MapperTable.

(** C7. The mapper is a total function and it is the mapper of the
    specification: [None] and the empty string map to "en"; a code whose
    lower-cased form is in the table of irregular cases maps to the value
    of the table (zh-cn, zh-tw, zh to zh; jw to jv; iw to he; fil to tl;
    no, nb, nn to no), in whatever case it is written; every other code
    maps to the first two characters of its lower-cased form; so zh-CN
    maps to zh, the empty string to en and xx-YY to xx. *)
Theorem map_langdetect_to_m2m_table :
  forall unicode_lower : str -> str,
    (forall lang_code : option str,
        map_langdetect_to_m2m unicode_lower lang_code
        = MapperSpec.translation_code unicode_lower lang_code) /\
    map_langdetect_to_m2m unicode_lower None = lit "en" /\
    map_langdetect_to_m2m unicode_lower (Some []) = lit "en" /\
    (map_langdetect_to_m2m unicode_lower (Some (lit "zh-cn")) = lit "zh" /\
     map_langdetect_to_m2m unicode_lower (Some (lit "zh-tw")) = lit "zh" /\
     map_langdetect_to_m2m unicode_lower (Some (lit "zh")) = lit "zh" /\
     map_langdetect_to_m2m unicode_lower (Some (lit "jw")) = lit "jv" /\
     map_langdetect_to_m2m unicode_lower (Some (lit "iw")) = lit "he" /\
     map_langdetect_to_m2m unicode_lower (Some (lit "fil")) = lit "tl" /\
     map_langdetect_to_m2m unicode_lower (Some (lit "no")) = lit "no" /\
     map_langdetect_to_m2m unicode_lower (Some (lit "nb")) = lit "no" /\
     map_langdetect_to_m2m unicode_lower (Some (lit "nn")) = lit "no") /\
    (map_langdetect_to_m2m unicode_lower (Some (lit "FIL")) = lit "tl" /\
     map_langdetect_to_m2m unicode_lower (Some (lit "Iw")) = lit "he" /\
     map_langdetect_to_m2m unicode_lower (Some (lit "NB")) = lit "no" /\
     map_langdetect_to_m2m unicode_lower (Some (lit "Pt-BR")) = lit "pt" /\
     map_langdetect_to_m2m unicode_lower (Some (lit "FRENCH")) = lit "fr") /\
    map_langdetect_to_m2m unicode_lower (Some (lit "zh-CN")) = lit "zh" /\
    map_langdetect_to_m2m unicode_lower (Some (lit "")) = lit "en" /\
    map_langdetect_to_m2m unicode_lower (Some (lit "xx-YY")) = lit "xx".
Proof.
  intro ul. split; [|repeat split; reflexivity].
  intros [[|c code]|]; try reflexivity.
  unfold map_langdetect_to_m2m, MapperSpec.translation_code.
  cbn [is_empty]. cbv zeta.
  rewrite str_lower_lowered, special_map_is_irregular. reflexivity.
Qed.
